(** * bun-mock-extended: the calledWith dispatch engine (src/CalledWithFn.ts)

    A shallow embedding of [calledWithFn], [checkCalledWith],
    [validateCalledWithArgs], [isJestAsymmetricMatcher] and
    [isBunBuiltInMatcher], and the properties of the Call Router proved
    about it. *)

From Stdlib Require Import ZArith String Bool List Lia.
From stdpp Require Import base option list.
Import ListNotations.

Local Open Scope string_scope.
Local Open Scope list_scope.

(** ** JavaScript values *)

Module JS.

(** Numbers are modelled by their integer values, plus [NaN], the one
    number that is not strictly equal to itself. *)
Inductive number :=
| NaN
| Num (z : Z).

(** Objects and functions are references: two of them are the same value
    exactly when they are the same reference. *)
Inductive value :=
| VUndefined
| VNull
| VBoolean (b : bool)
| VNumber (n : number)
| VString (s : string)
| VObject (ref : nat)
| VFunction (ref : nat).

Inductive jstype :=
| TyUndefined | TyObject | TyBoolean | TyNumber | TyString | TyFunction.

(** [typeof v] *)
Definition typeof (v : value) : jstype :=
  match v with
  | VUndefined => TyUndefined
  | VNull => TyObject
  | VBoolean _ => TyBoolean
  | VNumber _ => TyNumber
  | VString _ => TyString
  | VObject _ => TyObject
  | VFunction _ => TyFunction
  end.

Definition jstype_eqb (a b : jstype) : bool :=
  match a, b with
  | TyUndefined, TyUndefined | TyObject, TyObject | TyBoolean, TyBoolean
  | TyNumber, TyNumber | TyString, TyString | TyFunction, TyFunction => true
  | _, _ => false
  end.

(** [!!v] *)
Definition truthy (v : value) : bool :=
  match v with
  | VUndefined | VNull => false
  | VBoolean b => b
  | VNumber NaN => false
  | VNumber (Num z) => negb (z =? 0)%Z
  | VString s => negb (s =? "")
  | VObject _ | VFunction _ => true
  end.

Definition number_eqb (a b : number) : bool :=
  match a, b with
  | Num x, Num y => (x =? y)%Z
  | _, _ => false
  end.

(** [a === b] *)
Definition strict_equal (a b : value) : bool :=
  match a, b with
  | VUndefined, VUndefined => true
  | VNull, VNull => true
  | VBoolean x, VBoolean y => Bool.eqb x y
  | VNumber x, VNumber y => number_eqb x y
  | VString x, VString y => (x =? y)
  | VObject r, VObject s => Nat.eqb r s
  | VFunction r, VFunction s => Nat.eqb r s
  | _, _ => false
  end.

(** What a [throw] carries: [new Error(message)], or any other value. *)
Inductive thrown :=
| ErrorObject (message : string)
| ThrownValue (v : value).

(** The outcome of running a piece of code that may throw. *)
Inductive completion (A : Type) :=
| Normal (a : A)
| Throw (e : thrown).
Arguments Normal {A} a.
Arguments Throw {A} e.

(** A function supplied by the user of the library. It has an identity
    (functions are compared with [===]) and a body, which takes the
    argument list and returns or throws. *)
Record closure := Closure {
  closure_id : nat;
  closure_body : list value -> completion value
}.

(** The constant function [() => v]. *)
Definition constant_closure (id : nat) (v : value) : closure :=
  Closure id (fun _ => Normal v).

(** Modelled from the spec: the [Matcher] class of ./Matchers is not among
    the sources; a Matcher is "a predicate object wrapping a one-argument
    boolean function asymmetricMatch(actual)". What the dispatch engine
    reads of an object is whether it is an instance of [Matcher], its
    [asymmetricMatch] property when that is a function, and the
    [Symbol.toStringTag] found through its prototype ([VUndefined] when the
    prototype is null or has none). *)
Inductive object :=
| MatcherInstance (asymmetricMatch : value -> bool) (protoToStringTag : value)
| PlainObject (asymmetricMatch : option (value -> bool)) (protoToStringTag : value).

End JS.
Import JS.

(** ** The mock-function primitive ([jest.fn] of bun:test) *)

(** The implementation installed on a mock function: a user function, or
    the dispatcher closure
    [(...args) => checkCalledWith(calledWithStack, args, fallbackMockImplementation)]
    that [calledWith] creates. *)
Inductive implementation :=
| UserFn (c : closure)
| Dispatcher.

(** Modelled from the spec: the mock-function primitive is external
    ([jest.fn]); it "can be invoked, can have its implementation replaced,
    can report its currently-installed implementation, and records every
    invocation's arguments". *)
Record mock := Mock {
  mockImpl : option implementation;
  mockCalls : list (list value)
}.

(** One entry of the Binding Stack: [{ args, calledWithFn }]. The delegate
    is held by reference, as the caller of [calledWith] holds it too. *)
Record CalledWithStackItem := StackItem {
  item_args : list value;
  item_calledWithFn : nat
}.

(** The state of one Call Router: what the closure of [calledWithFn]
    captures ([fallbackMockImplementation], [fn], [calledWithStack]) and
    the mock functions created so far, a reference being an index.
    [dispatcherInstalls] is a ghost counter of the executions of
    [fn.mockImplementation(...)] in [calledWith]. *)
Record state := State {
  fallbackMockImplementation : option closure;
  fn : nat;
  calledWithStack : list CalledWithStackItem;
  mocks : list mock;
  dispatcherInstalls : nat
}.

Definition set_mocks (ms : list mock) (st : state) : state :=
  State (fallbackMockImplementation st) (fn st) (calledWithStack st) ms
        (dispatcherInstalls st).

Definition set_calledWithStack (s : list CalledWithStackItem) (st : state) : state :=
  State (fallbackMockImplementation st) (fn st) s (mocks st)
        (dispatcherInstalls st).

Definition count_install (st : state) : state :=
  State (fallbackMockImplementation st) (fn st) (calledWithStack st) (mocks st)
        (S (dispatcherInstalls st)).

(** [jest.fn(impl)]: a new mock function, distinct from all existing ones. *)
Definition jest_fn (impl : option closure) (st : state) : nat * state :=
  (length (mocks st),
   set_mocks (mocks st ++ [Mock (option_map UserFn impl) []]) st).

(** [m.getMockImplementation()] *)
Definition getMockImplementation (r : nat) (st : state)
  : option (option implementation) :=
  match mocks st !! r with
  | Some m => Some (mockImpl m)
  | None => None
  end.

(** [m.mockImplementation(i)] *)
Definition mockImplementation (r : nat) (i : implementation) (st : state) : state :=
  match mocks st !! r with
  | Some m => set_mocks (<[r := Mock (Some i) (mockCalls m)]> (mocks st)) st
  | None => st
  end.

(** Calling a mock function: the call is recorded, then the installed
    implementation runs; with none installed the result is [undefined].
    [dispatch] is what the dispatcher closure does. [None] is a reference
    to a mock function that was never created. *)
Definition jest_call
    (dispatch : list value -> state -> option (completion value * state))
    (r : nat) (actualArgs : list value) (st : state)
  : option (completion value * state) :=
  match mocks st !! r with
  | None => None
  | Some m =>
    let st' :=
      set_mocks (<[r := Mock (mockImpl m) (mockCalls m ++ [actualArgs])]> (mocks st)) st in
    match mockImpl m with
    | None => Some (Normal VUndefined, st')
    | Some (UserFn c) => Some (closure_body c actualArgs, st')
    | Some Dispatcher => dispatch actualArgs st'
    end
  end.

(** ** src/CalledWithFn.ts *)

Section CalledWithFn.

(** The objects of the program: what each object reference denotes.
    Matchers are immutable once constructed. *)
Variable objects : nat -> object.

Definition instanceof_Matcher (v : value) : bool :=
  match v with
  | VObject r =>
    match objects r with MatcherInstance _ _ => true | PlainObject _ _ => false end
  | _ => false
  end.

(** The property [asymmetricMatch] of [v], when it is a function. *)
Definition asymmetricMatch_of (v : value) : option (value -> bool) :=
  match v with
  | VObject r =>
    match objects r with
    | MatcherInstance p _ => Some p
    | PlainObject p _ => p
    end
  | _ => None
  end.

(** [Object.getPrototypeOf(v)?.[Symbol.toStringTag]] *)
Definition proto_toStringTag (v : value) : value :=
  match v with
  | VObject r =>
    match objects r with
    | MatcherInstance _ t => t
    | PlainObject _ t => t
    end
  | _ => VUndefined
  end.

(** [matcher.asymmetricMatch(actual)] *)
Definition call_asymmetricMatch (matcher actual : value) : bool :=
  match asymmetricMatch_of matcher with
  | Some p => p actual
  | None => false
  end.

Definition isJestAsymmetricMatcher (obj : value) : bool :=
  truthy obj && jstype_eqb (typeof obj) TyObject
  && match asymmetricMatch_of obj with Some _ => true | None => false end.

Definition isBunBuiltInMatcher (obj : value) : bool :=
  if negb (truthy obj) || negb (jstype_eqb (typeof obj) TyObject) then false
  else
    let tag :=
      if truthy (proto_toStringTag obj) then proto_toStringTag obj
      else VString "" in
    match tag with
    | VString s => String.prefix "Expect" s
    | _ => false
    end.

Definition unsupported_matcher_message : string :=
  "calledWith() does not support Bun's built-in matchers like expect.anything() or expect.any(). Use the library's matchers instead: any(), anyNumber(), anyString(), etc.".

Definition validateCalledWithArgs (args : list value) : completion unit :=
  let bunMatchers := List.filter isBunBuiltInMatcher args in
  if (0 <? length bunMatchers)%nat
  then Throw (ErrorObject unsupported_matcher_message)
  else Normal tt.

(** [xs.every((x, i) => f x i)] *)
Fixpoint every_from {A : Type} (f : A -> nat -> bool) (i : nat) (xs : list A) : bool :=
  match xs with
  | [] => true
  | x :: xs' => f x i && every_from f (S i) xs'
  end.

Definition every {A : Type} (f : A -> nat -> bool) (xs : list A) : bool :=
  every_from f 0 xs.

(** [actualArgs[i]] *)
Definition arg_at (actualArgs : list value) (i : nat) : value :=
  nth i actualArgs VUndefined.

(** The callback of [every] in [checkCalledWith]. *)
Definition entry_matches (actualArgs : list value) (matcher : value) (i : nat) : bool :=
  if instanceof_Matcher matcher then
    call_asymmetricMatch matcher (arg_at actualArgs i)
  else if isJestAsymmetricMatcher matcher then
    call_asymmetricMatch matcher (arg_at actualArgs i)
  else strict_equal (arg_at actualArgs i) matcher.

(** The callback of [find] in [checkCalledWith]. *)
Definition instance_matches (actualArgs : list value) (instance : CalledWithStackItem) : bool :=
  every (entry_matches actualArgs) (item_args instance).

(** Calling a delegate. The modelled operations install only user
    functions on delegates; a delegate carrying the dispatcher itself is
    outside the model. *)
Definition call_delegate (r : nat) (actualArgs : list value) (st : state)
  : option (completion value * state) :=
  jest_call (fun _ _ => None) r actualArgs st.

Definition checkCalledWith (calledWithStack : list CalledWithStackItem)
    (actualArgs : list value) (fallbackMockImplementation : option closure)
    (st : state) : option (completion value * state) :=
  let calledWithInstance := List.find (instance_matches actualArgs) calledWithStack in
  match calledWithInstance with
  | Some instance => call_delegate (item_calledWithFn instance) actualArgs st
  | None =>
    match fallbackMockImplementation with
    | Some f => Some (closure_body f actualArgs, st)
    | None => Some (Normal VUndefined, st)
    end
  end.

(** [calledWithFn({ fallbackMockImplementation })]: the router, with no
    binding and [fn = jest.fn(fallbackMockImplementation)]. *)
Definition calledWithFn (fallback : option closure) : state :=
  let '(fn, st) := jest_fn fallback (State fallback 0 [] [] 0) in
  State fallback fn [] (mocks st) 0.

(** [mockImplementation === fallbackMockImplementation]; the dispatcher is
    a closure of its own and is never the fallback. *)
Definition same_function (i : implementation) (fallback : option closure) : bool :=
  match i, fallback with
  | UserFn c, Some f => Nat.eqb (closure_id c) (closure_id f)
  | _, _ => false
  end.

(** [!mockImplementation || mockImplementation === fallbackMockImplementation] *)
Definition must_install (mockImplementation : option implementation)
    (fallback : option closure) : bool :=
  match mockImplementation with
  | None => true
  | Some i => same_function i fallback
  end.

(** [fn.calledWith(...args)] *)
Definition calledWith (args : list value) (st : state)
  : option (completion nat * state) :=
  match validateCalledWithArgs args with
  | Throw e => Some (Throw e, st)
  | Normal _ =>
    let '(calledWithFn, st1) := jest_fn (fallbackMockImplementation st) st in
    match getMockImplementation (fn st1) st1 with
    | None => None
    | Some mockImplementation0 =>
      let st2 :=
        if must_install mockImplementation0 (fallbackMockImplementation st1)
        then set_calledWithStack []
               (count_install (mockImplementation (fn st1) Dispatcher st1))
        else st1 in
      Some (Normal calledWithFn,
            set_calledWithStack (StackItem args calledWithFn :: calledWithStack st2) st2)
    end
  end.

(** Calling the router: [fn(...actualArgs)]. The dispatcher reads the
    variable [calledWithStack] when it runs. *)
Definition invoke (actualArgs : list value) (st : state)
  : option (completion value * state) :=
  jest_call
    (fun a s => checkCalledWith (calledWithStack s) a (fallbackMockImplementation s) s)
    (fn st) actualArgs st.

End CalledWithFn.

(** ** Router states reached by using the router *)

Section RouterModel.

Variable objects : nat -> object.

(** What a call of the mock function [m] returns when its implementation
    is a user function or absent. *)
Definition impl_result (m : mock) (actualArgs : list value) : completion value :=
  match mockImpl m with
  | Some (UserFn c) => closure_body c actualArgs
  | _ => Normal VUndefined
  end.

(** [m] after one more recorded call. *)
Definition record_call (m : mock) (actualArgs : list value) : mock :=
  Mock (mockImpl m) (mockCalls m ++ [actualArgs]).

(** The first binding of the stack that matches, as [find] returns it. *)
Definition winner (actualArgs : list value) (st : state) : option CalledWithStackItem :=
  List.find (instance_matches objects actualArgs) (calledWithStack st).

(** One use of the router: a registration (successful or rejected), a
    call, or the configuration of a delegate with a user function
    ([delegate.mockImplementation(c)]). *)
Inductive step : state -> state -> Prop :=
| step_calledWith args st r st' :
    calledWith objects args st = Some (r, st') -> step st st'
| step_invoke actualArgs st r st' :
    invoke objects actualArgs st = Some (r, st') -> step st st'
| step_configure d c st :
    d <> fn st -> step st (mockImplementation d (UserFn c) st).

(** The states of a router constructed with fallback [fb]. *)
Inductive reachable (fb : option closure) : state -> Prop :=
| reachable_init : reachable fb (calledWithFn fb)
| reachable_step st st' : reachable fb st -> step st st' -> reachable fb st'.

(** The invariant of the router. *)
Record wf (fb : option closure) (st : state) : Prop := {
  wf_fallback : fallbackMockImplementation st = fb;
  wf_items : forall b, In b (calledWithStack st) ->
      item_calledWithFn b < length (mocks st) /\ item_calledWithFn b <> fn st;
  wf_nodup : List.NoDup (List.map item_calledWithFn (calledWithStack st));
  wf_delegates : forall r m, mocks st !! r = Some m -> r <> fn st ->
      mockImpl m <> Some Dispatcher;
  wf_router : exists mf, mocks st !! fn st = Some mf /\
      ((mockImpl mf = option_map UserFn fb /\ calledWithStack st = [] /\
        dispatcherInstalls st = 0) \/
       (mockImpl mf = Some Dispatcher /\ dispatcherInstalls st = 1))
}.

(** What an unmatched call returns:
    [fallbackMockImplementation && fallbackMockImplementation(...actualArgs)],
    which is also what [fn] does before any dispatcher is installed. *)
Definition fallback_result (fb : option closure) (actualArgs : list value)
  : completion value :=
  match fb with
  | Some f => closure_body f actualArgs
  | None => Normal VUndefined
  end.

(** The state after the mock function [r], which was [m], recorded a call. *)
Definition recorded (r : nat) (m : mock) (actualArgs : list value) (st : state) : state :=
  set_mocks (<[r := record_call m actualArgs]> (mocks st)) st.

(** "literal entries via strict equality, Matcher entries via
    asymmetricMatch": an entry is a Matcher entry when it is an instance of
    [Matcher] or an object carrying an [asymmetricMatch] function. *)
Definition is_matcher_entry (entry : value) : bool :=
  instanceof_Matcher objects entry || isJestAsymmetricMatcher objects entry.

Inductive entry_matches_spec (entry actual : value) : Prop :=
| matches_by_predicate p :
    is_matcher_entry entry = true ->
    asymmetricMatch_of objects entry = Some p ->
    p actual = true ->
    entry_matches_spec entry actual
| matches_by_strict_equality :
    is_matcher_entry entry = false ->
    strict_equal actual entry = true ->
    entry_matches_spec entry actual.

(** The implementation currently installed on the router's [fn]. *)
Definition router_implementation (st : state) : option (option implementation) :=
  getMockImplementation (fn st) st.


(** Every mock function that exists in [st] still exists in [st'] with the
    same implementation: only call histories may differ. *)
Definition only_histories_change (st st' : state) : Prop :=
  forall k m, mocks st !! k = Some m ->
    exists m', mocks st' !! k = Some m' /\ mockImpl m' = mockImpl m.

(** The frame as C10 words it: a call leaves the stack as it is, a
    registration pushes its binding on the front, and neither changes
    anything else than call histories. *)
Definition frame_as_claimed (st : state) : Prop :=
  (forall I r st',
     invoke objects I st = Some (r, st') ->
     calledWithStack st' = calledWithStack st /\ only_histories_change st st') /\
  (forall args d st',
     calledWith objects args st = Some (Normal d, st') ->
     calledWithStack st' = StackItem args d :: calledWithStack st /\
     only_histories_change st st').

(** A use of the router, as data: [fn.calledWith(...args)],
    [fn(...actualArgs)], or [delegate.mockImplementation(c)] on a mock
    function [d] other than [fn]. *)
Inductive operation :=
| Register (args : list value)
| Call (actualArgs : list value)
| Configure (d : nat) (c : closure).

(** The router after one operation; a thrown exception leaves the program
    running. [None]: the operation is not one on this router (a mock
    function that does not exist, or the configuration of [fn] itself). *)
Definition perform (o : operation) (st : state) : option state :=
  match o with
  | Register args =>
    match calledWith objects args st with
    | Some (_, st') => Some st'
    | None => None
    end
  | Call actualArgs =>
    match invoke objects actualArgs st with
    | Some (_, st') => Some st'
    | None => None
    end
  | Configure d c =>
    if Nat.eqb d (fn st) then None
    else Some (mockImplementation d (UserFn c) st)
  end.

Fixpoint perform_all (ops : list operation) (st : state) : option state :=
  match ops with
  | [] => Some st
  | o :: ops' =>
    match perform o st with
    | Some st' => perform_all ops' st'
    | None => None
    end
  end.

(** The operation is a registration whose pattern passes validation. *)
Definition valid_registration (o : operation) : bool :=
  match o with
  | Register args =>
    match validateCalledWithArgs objects args with
    | Normal _ => true
    | Throw _ => false
    end
  | _ => false
  end.

End RouterModel.

(** ** A concrete router *)

(** Object 0 is the library's [anyNumber()], object 1 an object of another
    library that follows the asymmetric-matcher protocol, object 2 Bun's
    [expect.anything()]; every other reference is a plain object. *)
Definition sample_objects (r : nat) : object :=
  match r with
  | 0 => MatcherInstance
           (fun v => match v with VNumber (Num _) => true | _ => false end)
           VUndefined
  | 1 => PlainObject (Some (fun v => strict_equal v (VString "x"))) VUndefined
  | 2 => PlainObject None (VString "ExpectAnything")
  | _ => PlainObject None VUndefined
  end.

Definition five : value := VNumber (Num 5).

Definition first : closure := constant_closure 1 (VString "first").

Definition second : closure := constant_closure 2 (VString "second").

(** [() => "fallback"], used as [fallbackMockImplementation]. *)
Definition sample_fallback : closure := constant_closure 7 (VString "fallback").

(** [() => "custom"], a function the user installs on the router itself. *)
Definition custom : closure := constant_closure 9 (VString "custom").

(** [const fn = calledWithFn({ fallbackMockImplementation }); fn.calledWith(5)] *)
Definition sample_router_with_fallback (objects : nat -> object) : state :=
  match calledWith objects [VNumber (Num 5)] (calledWithFn (Some sample_fallback)) with
  | Some (_, st') => st'
  | None => calledWithFn (Some sample_fallback)
  end.

(** The router after [fn.calledWith(...args)]. *)
Definition after_calledWith (objects : nat -> object) (args : list value)
    (st : state) : state :=
  match calledWith objects args st with
  | Some (_, st') => st'
  | None => st
  end.

(** The router after the call [fn(...actualArgs)]. *)
Definition after_invoke (objects : nat -> object) (actualArgs : list value)
    (st : state) : state :=
  match invoke objects actualArgs st with
  | Some (_, st') => st'
  | None => st
  end.

(** [const fn = calledWithFn(); fn.calledWith(5, "x")] *)
Definition sample_router : state :=
  after_calledWith sample_objects [five; VString "x"] (calledWithFn None).

(** ** The invariant and what the operations do *)

Section Router.

Variable objects : nat -> object.

Lemma must_install_fallback (fb : option closure) :
  must_install (option_map UserFn fb) fb = true.
Proof.
  destruct fb as [f|]; simpl; [apply Nat.eqb_refl | reflexivity].
Qed.

Lemma wf_init fb : wf fb (calledWithFn fb).
Proof.
  unfold calledWithFn; simpl. split; simpl.
  - reflexivity.
  - intros b [].
  - constructor.
  - intros r m Hr Hne. destruct r as [|r]; [congruence|discriminate].
  - exists (Mock (option_map UserFn fb) []). split; [reflexivity|].
    left. auto.
Qed.

(** The successful branch of [calledWith], in a well-formed state. *)
Lemma calledWith_ok fb st args :
  wf fb st ->
  validateCalledWithArgs objects args = Normal tt ->
  exists mf,
    mocks st !! fn st = Some mf /\
    let d := length (mocks st) in
    let ms := mocks st ++ [Mock (option_map UserFn fb) []] in
    calledWith objects args st =
      Some (Normal d,
            if must_install (mockImpl mf) fb
            then State fb (fn st) [StackItem args d]
                   (<[fn st := Mock (Some Dispatcher) (mockCalls mf)]> ms)
                   (S (dispatcherInstalls st))
            else State fb (fn st) (StackItem args d :: calledWithStack st) ms
                   (dispatcherInstalls st)).
Proof.
  intros Hwf Hval.
  destruct (wf_router _ _ Hwf) as (mf & Hmf & _).
  exists mf. split; [exact Hmf|].
  unfold calledWith. rewrite Hval. simpl.
  unfold getMockImplementation. simpl.
  rewrite (wf_fallback _ _ Hwf).
  rewrite (lookup_app_l_Some _ _ _ _ Hmf). simpl.
  destruct (must_install (mockImpl mf) fb).
  - unfold mockImplementation. simpl.
    rewrite (lookup_app_l_Some _ _ _ _ Hmf).
    unfold set_calledWithStack, count_install, set_mocks. simpl.
    rewrite (wf_fallback _ _ Hwf). reflexivity.
  - unfold set_calledWithStack, set_mocks. simpl.
    rewrite (wf_fallback _ _ Hwf). reflexivity.
Qed.

Lemma call_delegate_ok d md actualArgs st :
  mocks st !! d = Some md ->
  mockImpl md <> Some Dispatcher ->
  call_delegate d actualArgs st =
    Some (impl_result md actualArgs, recorded d md actualArgs st).
Proof.
  intros Hd Himpl. unfold call_delegate, jest_call, impl_result, recorded, record_call.
  rewrite Hd. destruct (mockImpl md) as [[c|]|]; try reflexivity.
  congruence.
Qed.

Lemma wf_recorded fb st r m actualArgs :
  wf fb st -> mocks st !! r = Some m -> wf fb (recorded r m actualArgs st).
Proof.
  intros Hwf Hr. destruct Hwf as [Hfb Hitems Hnd Hdel Hrouter].
  split; simpl.
  - exact Hfb.
  - intros b Hb. rewrite length_insert. auto.
  - exact Hnd.
  - intros r' m' Hr' Hne.
    destruct (decide (r = r')) as [->|Hrr].
    + rewrite list_lookup_insert_eq in Hr' by (eapply lookup_lt_Some; eauto).
      inversion Hr'; subst; simpl. eauto.
    + rewrite list_lookup_insert_ne in Hr' by exact Hrr. eauto.
  - destruct Hrouter as (mf & Hmf & Hcase).
    destruct (decide (r = fn st)) as [->|Hrr].
    + exists (record_call m actualArgs). split.
      * apply list_lookup_insert_eq. eapply lookup_lt_Some; eauto.
      * assert (m = mf) by congruence. subst. exact Hcase.
    + exists mf. split; [|exact Hcase].
      rewrite list_lookup_insert_ne by exact Hrr. exact Hmf.
Qed.

Lemma wf_configure fb st d c :
  wf fb st -> d <> fn st -> wf fb (mockImplementation d (UserFn c) st).
Proof.
  intros Hwf Hd. unfold mockImplementation.
  destruct (mocks st !! d) as [md|] eqn:Hmd; [|exact Hwf].
  destruct Hwf as [Hfb Hitems Hnd Hdel Hrouter].
  split; simpl.
  - exact Hfb.
  - intros b Hb. rewrite length_insert. auto.
  - exact Hnd.
  - intros r' m' Hr' Hne.
    destruct (decide (d = r')) as [->|Hrr].
    + rewrite list_lookup_insert_eq in Hr' by (eapply lookup_lt_Some; eauto).
      inversion Hr'; subst; simpl. discriminate.
    + rewrite list_lookup_insert_ne in Hr' by exact Hrr. eauto.
  - destruct Hrouter as (mf & Hmf & Hcase).
    exists mf. split; [|exact Hcase].
    rewrite list_lookup_insert_ne by exact Hd. exact Hmf.
Qed.

(** What a call of the router does, in a well-formed state: it records the
    call on [fn]; then the first matching binding's delegate records the
    call and runs, or, with no matching binding, the fallback runs. *)
Lemma invoke_spec fb st actualArgs :
  wf fb st ->
  exists mf, mocks st !! fn st = Some mf /\
    match winner objects actualArgs st with
    | Some b =>
      exists md, mocks st !! item_calledWithFn b = Some md /\
        invoke objects actualArgs st =
          Some (impl_result md actualArgs,
                recorded (item_calledWithFn b) md actualArgs
                  (recorded (fn st) mf actualArgs st))
    | None =>
      invoke objects actualArgs st =
        Some (fallback_result fb actualArgs, recorded (fn st) mf actualArgs st)
    end.
Proof.
  intros Hwf. destruct (wf_router _ _ Hwf) as (mf & Hmf & Hcase).
  exists mf. split; [exact Hmf|].
  unfold winner, invoke, jest_call, recorded, record_call. rewrite Hmf.
  destruct Hcase as [(Himpl & Hstack & _) | (Himpl & _)].
  - rewrite Hstack, Himpl. simpl.
    destruct fb as [f|]; reflexivity.
  - rewrite Himpl. unfold checkCalledWith. simpl.
    destruct (find (instance_matches objects actualArgs) (calledWithStack st))
      as [b|] eqn:Hfind.
    + apply find_some in Hfind. destruct Hfind as [Hin _].
      destruct (wf_items _ _ Hwf b Hin) as [Hlt Hne].
      destruct (lookup_lt_is_Some_2 _ _ Hlt) as [md Hmd].
      exists md. split; [exact Hmd|].
      rewrite (call_delegate_ok (item_calledWithFn b) md).
      * reflexivity.
      * simpl. rewrite list_lookup_insert_ne by auto. exact Hmd.
      * eapply wf_delegates; eauto.
    + rewrite (wf_fallback _ _ Hwf). destruct fb; reflexivity.
Qed.

Lemma wf_invoke fb st actualArgs r st' :
  wf fb st -> invoke objects actualArgs st = Some (r, st') -> wf fb st'.
Proof.
  intros Hwf Hinv.
  destruct (invoke_spec fb st actualArgs Hwf) as (mf & Hmf & Hspec).
  destruct (winner objects actualArgs st) as [b|] eqn:Hw.
  - destruct Hspec as (md & Hmd & Heq). rewrite Heq in Hinv.
    inversion Hinv; subst.
    apply wf_recorded; [apply wf_recorded; assumption|].
    simpl. apply find_some in Hw. destruct Hw as [Hin _].
    destruct (wf_items _ _ Hwf b Hin) as [_ Hne].
    rewrite list_lookup_insert_ne by auto. exact Hmd.
  - rewrite Hspec in Hinv. inversion Hinv; subst.
    apply wf_recorded; assumption.
Qed.

Lemma validate_cases args :
  validateCalledWithArgs objects args = Normal tt \/
  validateCalledWithArgs objects args = Throw (ErrorObject unsupported_matcher_message).
Proof.
  unfold validateCalledWithArgs.
  destruct (0 <? length (List.filter (isBunBuiltInMatcher objects) args))%nat; auto.
Qed.

Lemma wf_calledWith fb st args r st' :
  wf fb st -> calledWith objects args st = Some (r, st') -> wf fb st'.
Proof.
  intros Hwf Hcw.
  destruct (validate_cases args) as [Hval|Hval].
  2:{ unfold calledWith in Hcw. rewrite Hval in Hcw. inversion Hcw; subst. exact Hwf. }
  destruct (calledWith_ok fb st args Hwf Hval) as (mf & Hmf & Heq).
  simpl in Heq. rewrite Heq in Hcw. clear Heq.
  pose proof (lookup_lt_Some _ _ _ Hmf) as Hfnlt.
  destruct Hwf as [Hfb Hitems Hnd Hdel Hrouter].
  destruct Hrouter as (mf' & Hmf' & Hcase).
  assert (mf' = mf) by congruence. subst mf'.
  destruct (must_install (mockImpl mf) fb) eqn:Hmust;
    injection Hcw as <- <-; split; simpl.
  - reflexivity.
  - intros b [<-|[]]. simpl. rewrite length_insert, length_app. simpl. lia.
  - constructor; [intros []|constructor].
  - intros r' m' Hr' Hne.
    rewrite list_lookup_insert_ne in Hr' by auto.
    apply lookup_app_Some in Hr'. destruct Hr' as [Hr'|[_ Hr']].
    + eauto.
    + destruct (r' - length (mocks st)) as [|k]; simpl in Hr'; [|discriminate].
      injection Hr' as <-. simpl. destruct fb; discriminate.
  - exists (Mock (Some Dispatcher) (mockCalls mf)). split.
    + apply list_lookup_insert_eq. rewrite length_app. lia.
    + right. simpl. split; [reflexivity|].
      destruct Hcase as [(_ & _ & Hn)|(Himpl & _)]; [lia|].
      rewrite Himpl in Hmust. discriminate.
  - reflexivity.
  - intros b [<-|Hb]; simpl; rewrite length_app; simpl.
    + lia.
    + destruct (Hitems b Hb). split; [lia|assumption].
  - constructor; [|exact Hnd].
    intros Hin. apply in_map_iff in Hin. destruct Hin as (b & Hbeq & Hb).
    destruct (Hitems b Hb) as [Hlt _]. lia.
  - intros r' m' Hr' Hne.
    apply lookup_app_Some in Hr'. destruct Hr' as [Hr'|[_ Hr']].
    + eauto.
    + destruct (r' - length (mocks st)) as [|k]; simpl in Hr'; [|discriminate].
      injection Hr' as <-. simpl. destruct fb; discriminate.
  - exists mf. split.
    + apply lookup_app_l_Some. exact Hmf.
    + destruct Hcase as [(Himpl & _)|Hcase]; [|right; exact Hcase].
      rewrite Himpl, must_install_fallback in Hmust. discriminate.
Qed.

Lemma reachable_wf fb st : reachable objects fb st -> wf fb st.
Proof.
  induction 1 as [|st st' _ IH Hstep].
  - apply wf_init.
  - destruct Hstep.
    + eapply wf_calledWith; eauto.
    + eapply wf_invoke; eauto.
    + apply wf_configure; assumption.
Qed.

(** *** Scanning: [find] and [every] *)

Lemma find_first_match {A : Type} (f : A -> bool) front b back :
  (forall x, In x front -> f x = false) -> f b = true ->
  List.find f (front ++ b :: back) = Some b.
Proof.
  intros Hfront Hb. induction front as [|x front IH]; simpl.
  - rewrite Hb. reflexivity.
  - rewrite (Hfront x) by (left; reflexivity).
    apply IH. intros y Hy. apply Hfront. right. exact Hy.
Qed.

Lemma find_no_match {A : Type} (f : A -> bool) l :
  (forall x, In x l -> f x = false) -> List.find f l = None.
Proof.
  intros Hl. induction l as [|x l IH]; simpl; [reflexivity|].
  rewrite (Hl x) by (left; reflexivity).
  apply IH. intros y Hy. apply Hl. right. exact Hy.
Qed.

Lemma every_from_spec {A : Type} (f : A -> nat -> bool) xs k :
  every_from f k xs = true <->
  forall i x, xs !! i = Some x -> f x (k + i) = true.
Proof.
  revert k. induction xs as [|y xs IH]; intros k; simpl.
  - split; [intros _ i x Hi; destruct i; discriminate | reflexivity].
  - rewrite andb_true_iff, IH. split.
    + intros [Hy Hxs] [|i] x Hi; simpl in Hi.
      * injection Hi as <-. rewrite Nat.add_0_r. exact Hy.
      * replace (k + S i) with (S k + i) by lia. apply Hxs. exact Hi.
    + intros H. split.
      * rewrite <- (Nat.add_0_r k). apply (H 0). reflexivity.
      * intros i x Hi. replace (S k + i) with (k + S i) by lia.
        apply (H (S i)). exact Hi.
Qed.

Lemma every_spec {A : Type} (f : A -> nat -> bool) xs :
  every f xs = true <-> forall i x, xs !! i = Some x -> f x i = true.
Proof. unfold every. rewrite every_from_spec. reflexivity. Qed.

Lemma every_from_ext {A : Type} (f g : A -> nat -> bool) xs k :
  (forall i x, xs !! i = Some x -> f x (k + i) = g x (k + i)) ->
  every_from f k xs = every_from g k xs.
Proof.
  revert k. induction xs as [|y xs IH]; intros k H; simpl; [reflexivity|].
  f_equal.
  - rewrite <- (Nat.add_0_r k). apply (H 0). reflexivity.
  - apply IH. intros i x Hi. replace (S k + i) with (k + S i) by lia.
    apply (H (S i)). exact Hi.
Qed.

(** Arguments beyond the length of the pattern are not read. *)
Lemma instance_matches_firstn actualArgs b :
  instance_matches objects (firstn (length (item_args b)) actualArgs) b =
  instance_matches objects actualArgs b.
Proof.
  unfold instance_matches, every. apply every_from_ext.
  intros i x Hi. simpl. apply lookup_lt_Some in Hi.
  unfold entry_matches, arg_at. rewrite nth_firstn.
  destruct (Nat.ltb_spec i (length (item_args b))); [reflexivity|lia].
Qed.

(** *** Configuring a mock function *)

Lemma mockImplementation_frame r i st :
  fallbackMockImplementation (mockImplementation r i st) = fallbackMockImplementation st /\
  fn (mockImplementation r i st) = fn st /\
  calledWithStack (mockImplementation r i st) = calledWithStack st /\
  dispatcherInstalls (mockImplementation r i st) = dispatcherInstalls st /\
  length (mocks (mockImplementation r i st)) = length (mocks st).
Proof.
  unfold mockImplementation. destruct (mocks st !! r); simpl; auto.
  rewrite length_insert. auto.
Qed.

Lemma mockImplementation_lookup r i st m :
  mocks st !! r = Some m ->
  mocks (mockImplementation r i st) !! r = Some (Mock (Some i) (mockCalls m)).
Proof.
  intros Hr. unfold mockImplementation. rewrite Hr. simpl.
  apply list_lookup_insert_eq. eapply lookup_lt_Some; eauto.
Qed.

Lemma mockImplementation_lookup_ne r i st k :
  k <> r -> mocks (mockImplementation r i st) !! k = mocks st !! k.
Proof.
  intros Hk. unfold mockImplementation. destruct (mocks st !! r); simpl; [|reflexivity].
  apply list_lookup_insert_ne. auto.
Qed.

Lemma winner_mockImplementation r i st actualArgs :
  winner objects actualArgs (mockImplementation r i st) = winner objects actualArgs st.
Proof.
  unfold winner.
  destruct (mockImplementation_frame r i st) as (_ & _ & -> & _). reflexivity.
Qed.

(** *** What a successful registration does *)

Lemma calledWith_Normal_valid args st d st' :
  calledWith objects args st = Some (Normal d, st') ->
  validateCalledWithArgs objects args = Normal tt.
Proof.
  intros Hcw. destruct (validate_cases args) as [Hval|Hval]; [exact Hval|].
  unfold calledWith in Hcw. rewrite Hval in Hcw. discriminate.
Qed.

Lemma calledWith_spec fb st args d st' :
  wf fb st ->
  calledWith objects args st = Some (Normal d, st') ->
  d = length (mocks st) /\
  fn st' = fn st /\
  calledWithStack st' = StackItem args d :: calledWithStack st /\
  length (mocks st') = S (length (mocks st)) /\
  mocks st' !! d = Some (Mock (option_map UserFn fb) []) /\
  (forall k, k <> fn st -> k < length (mocks st) -> mocks st' !! k = mocks st !! k) /\
  (exists mf, mocks st !! fn st = Some mf /\
     mocks st' !! fn st = Some (Mock (Some Dispatcher) (mockCalls mf))) /\
  dispatcherInstalls st' = 1 /\
  (dispatcherInstalls st = 1 ->
     mocks st' !! fn st = mocks st !! fn st).
Proof.
  intros Hwf Hcw.
  pose proof (calledWith_Normal_valid _ _ _ _ Hcw) as Hval.
  destruct (calledWith_ok fb st args Hwf Hval) as (mf & Hmf & Heq).
  simpl in Heq. rewrite Heq in Hcw. clear Heq.
  pose proof (lookup_lt_Some _ _ _ Hmf) as Hfnlt.
  destruct (wf_router _ _ Hwf) as (mf' & Hmf' & Hcase).
  assert (mf' = mf) by congruence. subst mf'.
  destruct (must_install (mockImpl mf) fb) eqn:Hmust;
    injection Hcw as <- <-; simpl.
  - destruct Hcase as [(Himpl & Hstack & Hn)|(Himpl & _)].
    2:{ rewrite Himpl in Hmust. discriminate. }
    rewrite Hstack, Hn, length_insert, length_app. simpl.
    repeat split.
    + lia.
    + rewrite list_lookup_insert_ne by lia.
      rewrite lookup_app_r by lia. rewrite Nat.sub_diag. reflexivity.
    + intros k Hk Hlt. rewrite list_lookup_insert_ne by auto.
      apply lookup_app_l. exact Hlt.
    + exists mf. split; [exact Hmf|].
      apply list_lookup_insert_eq. rewrite length_app. lia.
    + discriminate.
  - destruct Hcase as [(Himpl & _)|(Himpl & Hn)].
    1:{ rewrite Himpl, must_install_fallback in Hmust. discriminate. }
    rewrite length_app. simpl.
    repeat split.
    + lia.
    + rewrite lookup_app_r by lia. rewrite Nat.sub_diag. reflexivity.
    + intros k Hk Hlt. apply lookup_app_l. exact Hlt.
    + exists mf. split; [exact Hmf|].
      rewrite lookup_app_l by exact Hfnlt. rewrite Hmf.
      destruct mf as [impl calls]. simpl in Himpl. subst impl. reflexivity.
    + exact Hn.
    + intros _. apply lookup_app_l. exact Hfnlt.
Qed.

(** Every entry that is not a Bun built-in matcher passes validation. *)
Lemma validate_Normal_iff args :
  validateCalledWithArgs objects args = Normal tt <->
  forall m, In m args -> isBunBuiltInMatcher objects m = false.
Proof.
  unfold validateCalledWithArgs.
  induction args as [|a args IH]; simpl.
  - split; [intros _ m []|reflexivity].
  - destruct (isBunBuiltInMatcher objects a) eqn:Ha; simpl.
    + split; [discriminate|]. intros H. rewrite (H a) in Ha by auto. discriminate.
    + rewrite IH. split.
      * intros H m [<-|Hm]; auto.
      * intros H m Hm. apply H. auto.
Qed.

Lemma calledWith_succeeds fb st args :
  wf fb st ->
  (forall m, In m args -> isBunBuiltInMatcher objects m = false) ->
  exists d st', calledWith objects args st = Some (Normal d, st').
Proof.
  intros Hwf Hargs. apply validate_Normal_iff in Hargs.
  destruct (calledWith_ok fb st args Hwf Hargs) as (mf & _ & Heq).
  eauto.
Qed.

(** Delegates of distinct bindings are distinct mock functions. *)
Lemma delegate_injective fb st b b' :
  wf fb st -> In b (calledWithStack st) -> In b' (calledWithStack st) ->
  item_calledWithFn b = item_calledWithFn b' -> b = b'.
Proof.
  intros Hwf. pose proof (wf_nodup _ _ Hwf) as Hnd.
  induction (calledWithStack st) as [|x l IH]; simpl; [intros []|].
  inversion Hnd as [|? ? Hnotin Hnd']; subst.
  intros [<-|Hb] [<-|Hb'] Heq.
  - reflexivity.
  - exfalso. apply Hnotin. rewrite Heq. apply in_map. exact Hb'.
  - exfalso. apply Hnotin. rewrite <- Heq. apply in_map. exact Hb.
  - apply IH; assumption.
Qed.

(** The first matching binding's delegate is called with the actual
    arguments, records the call, and its result is the result. *)
Lemma invoke_first_match fb st actualArgs front b back :
  wf fb st ->
  calledWithStack st = front ++ b :: back ->
  (forall x, In x front -> instance_matches objects actualArgs x = false) ->
  instance_matches objects actualArgs b = true ->
  exists md st',
    mocks st !! item_calledWithFn b = Some md /\
    invoke objects actualArgs st = Some (impl_result md actualArgs, st') /\
    mocks st' !! item_calledWithFn b = Some (record_call md actualArgs) /\
    calledWithStack st' = calledWithStack st /\
    (forall k, k <> fn st -> k <> item_calledWithFn b ->
       mocks st' !! k = mocks st !! k).
Proof.
  intros Hwf Hstack Hfront Hb.
  destruct (invoke_spec fb st actualArgs Hwf) as (mf & Hmf & Hspec).
  unfold winner in Hspec. rewrite Hstack in Hspec.
  rewrite (find_first_match _ front b back Hfront Hb) in Hspec.
  destruct Hspec as (md & Hmd & Heq).
  exists md. eexists. split; [exact Hmd|]. split; [exact Heq|].
  simpl. repeat split.
  - apply list_lookup_insert_eq. rewrite length_insert.
    eapply lookup_lt_Some; eauto.
  - intros k Hk1 Hk2. rewrite !list_lookup_insert_ne by auto. reflexivity.
Qed.

End Router.

(** ** Properties of the Call Router *)

Section Properties.

Variable objects : nat -> object.

Lemma entry_matches_iff actualArgs entry i :
  entry_matches objects actualArgs entry i = true <->
  entry_matches_spec objects entry (arg_at actualArgs i).
Proof.
  unfold entry_matches, call_asymmetricMatch.
  destruct (instanceof_Matcher objects entry) eqn:Hinst.
  - assert (Hm : is_matcher_entry objects entry = true)
      by (unfold is_matcher_entry; rewrite Hinst; reflexivity).
    destruct (asymmetricMatch_of objects entry) as [p|] eqn:Hp.
    + split.
      * intros H. eapply matches_by_predicate; eauto.
      * intros [q _ Hq Hqa|Hf _]; congruence.
    + exfalso. unfold instanceof_Matcher in Hinst. unfold asymmetricMatch_of in Hp.
      destruct entry; try discriminate.
      destruct (objects ref); discriminate.
  - destruct (isJestAsymmetricMatcher objects entry) eqn:Hjest.
    + assert (Hm : is_matcher_entry objects entry = true)
        by (unfold is_matcher_entry; rewrite Hinst, Hjest; reflexivity).
      destruct (asymmetricMatch_of objects entry) as [p|] eqn:Hp.
      * split.
        -- intros H. eapply matches_by_predicate; eauto.
        -- intros [q _ Hq Hqa|Hf _]; congruence.
      * exfalso. unfold isJestAsymmetricMatcher in Hjest. rewrite Hp in Hjest.
        rewrite andb_false_r in Hjest. discriminate.
    + assert (Hm : is_matcher_entry objects entry = false)
        by (unfold is_matcher_entry; rewrite Hinst, Hjest; reflexivity).
      split.
      * intros H. apply matches_by_strict_equality; assumption.
      * intros [q Hq _ _|_ H]; congruence.
Qed.

(** C1. Dispatch is newest-first, first match wins: when [P1] is
    registered and then [P2], and both match the arguments [I], calling
    the router with [I] calls the delegate of [P2], whatever it was
    configured with, and returns its result; the delegate of [P1] is not
    called. Nothing requires [P1] and [P2] to differ: two registrations
    are two entries of the stack, with two distinct delegates. *)
Theorem newest_matching_binding_wins fb st P1 P2 I d1 d2 st1 st2 c1 c2 :
  reachable objects fb st ->
  calledWith objects P1 st = Some (Normal d1, st1) ->
  calledWith objects P2 st1 = Some (Normal d2, st2) ->
  every (entry_matches objects I) P1 = true ->
  every (entry_matches objects I) P2 = true ->
  let st3 := mockImplementation d2 (UserFn c2) (mockImplementation d1 (UserFn c1) st2) in
  d1 <> d2 /\
  calledWithStack st3 = StackItem P2 d2 :: StackItem P1 d1 :: calledWithStack st /\
  exists st4,
    invoke objects I st3 = Some (closure_body c2 I, st4) /\
    (exists m2, mocks st3 !! d2 = Some m2 /\ mocks st4 !! d2 = Some (record_call m2 I)) /\
    mocks st4 !! d1 = mocks st3 !! d1.
Proof.
  intros Hreach H1 H2 HP1 HP2 st3.
  pose proof (reachable_wf objects fb st Hreach) as Hwf.
  pose proof (wf_calledWith objects fb _ _ _ _ Hwf H1) as Hwf1.
  pose proof (wf_calledWith objects fb _ _ _ _ Hwf1 H2) as Hwf2.
  destruct (calledWith_spec objects fb _ _ _ _ Hwf H1)
    as (Hd1 & Hfn1 & Hs1 & Hlen1 & Hnew1 & _).
  destruct (calledWith_spec objects fb _ _ _ _ Hwf1 H2)
    as (Hd2 & Hfn2 & Hs2 & Hlen2 & Hnew2 & Hold2 & _).
  assert (Hne : d1 <> d2) by lia.
  assert (Hd1fn : d1 <> fn st2).
  { destruct (wf_items _ _ Hwf2 (StackItem P1 d1)) as [_ H]; [|exact H].
    rewrite Hs2, Hs1. right. left. reflexivity. }
  assert (Hd2fn : d2 <> fn st2).
  { destruct (wf_items _ _ Hwf2 (StackItem P2 d2)) as [_ H]; [|exact H].
    rewrite Hs2. left. reflexivity. }
  set (st2' := mockImplementation d1 (UserFn c1) st2) in *.
  assert (Hwf2' : wf fb st2') by (apply wf_configure; assumption).
  destruct (mockImplementation_frame d1 (UserFn c1) st2) as (_ & Hfn2' & Hs2' & _).
  fold st2' in Hfn2', Hs2'.
  assert (Hwf3 : wf fb st3).
  { apply wf_configure; [exact Hwf2'|]. rewrite Hfn2'. exact Hd2fn. }
  destruct (mockImplementation_frame d2 (UserFn c2) st2') as (_ & Hfn3 & Hs3 & _).
  fold st3 in Hfn3, Hs3.
  assert (Hstack3 : calledWithStack st3 =
                    StackItem P2 d2 :: StackItem P1 d1 :: calledWithStack st)
    by (rewrite Hs3, Hs2', Hs2, Hs1; reflexivity).
  split; [exact Hne|]. split; [exact Hstack3|].
  destruct (invoke_first_match objects fb st3 I [] (StackItem P2 d2)
              (StackItem P1 d1 :: calledWithStack st) Hwf3 Hstack3)
    as (md & st4 & Hmd & Hinv & Hrec & _ & Hframe).
  { intros x []. }
  { exact HP2. }
  simpl in Hmd, Hrec, Hframe.
  assert (Hmd' : exists calls, md = Mock (Some (UserFn c2)) calls).
  { destruct (mocks st2' !! d2) as [m|] eqn:Hm.
    - exists (mockCalls m).
      pose proof (mockImplementation_lookup d2 (UserFn c2) st2' m Hm) as Hl.
      fold st3 in Hl. congruence.
    - exfalso. unfold st2' in Hm.
      rewrite mockImplementation_lookup_ne in Hm by auto.
      rewrite Hnew2 in Hm. discriminate. }
  destruct Hmd' as (calls & ->).
  exists st4. split; [exact Hinv|]. split.
  - eauto.
  - apply Hframe; [|exact Hne].
    rewrite Hfn3, Hfn2'. exact Hd1fn.
Qed.

(** C2. A binding matches exactly when every entry of its pattern matches
    the actual argument at the same position, a literal by [===] and a
    Matcher entry by its [asymmetricMatch] predicate; the delegate of the
    first binding that matches is called with the actual arguments and its
    result is returned. The pattern [[5, "x"]] matches the call
    [(5, "x")] and not the call [(5, "y")]. *)
Theorem first_fully_matching_binding_dispatches fb st I front b back :
  reachable objects fb st ->
  calledWithStack st = front ++ b :: back ->
  (forall x, In x front -> instance_matches objects I x = false) ->
  (forall i entry, item_args b !! i = Some entry ->
     entry_matches_spec objects entry (arg_at I i)) ->
  (forall b' : CalledWithStackItem,
     instance_matches objects I b' = true <->
     forall i entry, item_args b' !! i = Some entry ->
       entry_matches_spec objects entry (arg_at I i)) /\
  (exists md st',
     mocks st !! item_calledWithFn b = Some md /\
     invoke objects I st = Some (impl_result md I, st') /\
     mocks st' !! item_calledWithFn b = Some (record_call md I)) /\
  (forall d,
     instance_matches objects [VNumber (Num 5); VString "x"]
       (StackItem [VNumber (Num 5); VString "x"] d) = true /\
     instance_matches objects [VNumber (Num 5); VString "y"]
       (StackItem [VNumber (Num 5); VString "x"] d) = false).
Proof.
  intros Hreach Hstack Hfront Hb.
  pose proof (reachable_wf objects fb st Hreach) as Hwf.
  assert (Hiff : forall b' : CalledWithStackItem,
     instance_matches objects I b' = true <->
     forall i entry, item_args b' !! i = Some entry ->
       entry_matches_spec objects entry (arg_at I i)).
  { intros b'. unfold instance_matches. rewrite every_spec.
    split; intros H i entry Hi; apply entry_matches_iff; auto. }
  split; [exact Hiff|]. split.
  - apply Hiff in Hb.
    destruct (invoke_first_match objects fb st I front b back Hwf Hstack Hfront Hb)
      as (md & st' & Hmd & Hinv & Hrec & _).
    eauto.
  - intros d. split; reflexivity.
Qed.

(** C3. A registration whose pattern contains an entry recognised as a
    Bun built-in matcher throws and leaves the router as it was: the same
    Binding Stack, the same implementation on [fn], no mock function
    created. *)
Theorem foreign_matcher_rejected_state_unchanged (st : state) args entry :
  In entry args ->
  isBunBuiltInMatcher objects entry = true ->
  calledWith objects args st =
    Some (Throw (ErrorObject unsupported_matcher_message), st).
Proof.
  intros Hin Hbun. unfold calledWith, validateCalledWithArgs.
  assert (Hf : In entry (List.filter (isBunBuiltInMatcher objects) args))
    by (apply filter_In; auto).
  destruct (List.filter (isBunBuiltInMatcher objects) args) as [|x l];
    [destruct Hf|reflexivity].
Qed.

(** C4. When no binding matches, in particular when none is registered,
    the call returns what the fallback does with the actual arguments, an
    exception included, and [undefined] when the router has no fallback. A
    router with the fallback [() => { throw new Error("not mocked") }] and
    no binding throws that error. *)
Theorem unmatched_call_falls_through fb st I :
  reachable objects fb st ->
  (forall b, In b (calledWithStack st) -> instance_matches objects I b = false) ->
  (exists st',
     invoke objects I st =
       Some (match fb with
             | Some f => closure_body f I
             | None => Normal VUndefined
             end, st')) /\
  (forall id, exists st',
     invoke objects I
       (calledWithFn (Some (Closure id (fun _ => Throw (ErrorObject "not mocked"))))) =
     Some (Throw (ErrorObject "not mocked"), st')).
Proof.
  intros Hreach Hnone.
  pose proof (reachable_wf objects fb st Hreach) as Hwf.
  split.
  - destruct (invoke_spec objects fb st I Hwf) as (mf & Hmf & Hspec).
    unfold winner in Hspec. rewrite (find_no_match _ _ Hnone) in Hspec.
    eexists. exact Hspec.
  - intros id. eexists. reflexivity.
Qed.

Lemma invoke_keeps_installs fb st actualArgs r st' :
  wf fb st ->
  invoke objects actualArgs st = Some (r, st') ->
  dispatcherInstalls st' = dispatcherInstalls st.
Proof.
  intros Hwf Hinv.
  destruct (invoke_spec objects fb st actualArgs Hwf) as (mf & _ & Hspec).
  destruct (winner objects actualArgs st) as [b|].
  - destruct Hspec as (md & _ & Heq). rewrite Heq in Hinv.
    injection Hinv as _ <-. reflexivity.
  - rewrite Hspec in Hinv. injection Hinv as _ <-. reflexivity.
Qed.

Lemma calledWith_rejected args st e st' :
  calledWith objects args st = Some (Throw e, st') -> st' = st.
Proof.
  unfold calledWith. destruct (validateCalledWithArgs objects args).
  - simpl. unfold getMockImplementation. simpl.
    destruct ((mocks st ++ _) !! fn st); [|discriminate].
    intros H. injection H as H _. discriminate.
  - intros H. injection H as _ <-. reflexivity.
Qed.

(** One operation: the dispatcher is installed by a valid registration and
    by nothing else. *)
Lemma perform_installs fb st o st' :
  reachable objects fb st ->
  perform objects o st = Some st' ->
  reachable objects fb st' /\
  dispatcherInstalls st' =
    if valid_registration objects o then 1 else dispatcherInstalls st.
Proof.
  intros Hreach Hp.
  pose proof (reachable_wf objects fb st Hreach) as Hwf.
  destruct o as [args|actualArgs|d c]; simpl in Hp |- *.
  - destruct (calledWith objects args st) as [[r st1]|] eqn:Hcw; [|discriminate].
    injection Hp as <-.
    split; [eapply reachable_step; [exact Hreach|eapply step_calledWith; exact Hcw]|].
    destruct r as [d|e].
    + rewrite (calledWith_Normal_valid objects _ _ _ _ Hcw).
      destruct (calledWith_spec objects fb _ _ _ _ Hwf Hcw)
        as (_ & _ & _ & _ & _ & _ & _ & Hn & _). exact Hn.
    + pose proof (calledWith_rejected _ _ _ _ Hcw) as ->.
      destruct (validate_cases objects args) as [Hval|Hval]; rewrite Hval.
      * exfalso. destruct (calledWith_ok objects fb st args Hwf Hval) as (mf & _ & Heq).
        simpl in Heq. rewrite Heq in Hcw. discriminate.
      * reflexivity.
  - destruct (invoke objects actualArgs st) as [[r st1]|] eqn:Hinv; [|discriminate].
    injection Hp as <-.
    split; [eapply reachable_step; [exact Hreach|eapply step_invoke; exact Hinv]|].
    eapply invoke_keeps_installs; eauto.
  - destruct (Nat.eqb_spec d (fn st)) as [Heq|Hne]; [discriminate|].
    injection Hp as <-.
    split; [eapply reachable_step; [exact Hreach|apply step_configure; exact Hne]|].
    destruct (mockImplementation_frame d (UserFn c) st) as (_ & _ & _ & Hn & _).
    exact Hn.
Qed.

Lemma perform_all_installs fb ops :
  forall st0 st,
    reachable objects fb st0 ->
    perform_all objects ops st0 = Some st ->
    reachable objects fb st /\
    dispatcherInstalls st =
      if existsb (valid_registration objects) ops then 1 else dispatcherInstalls st0.
Proof.
  induction ops as [|o ops IH]; intros st0 st Hreach Hp; simpl in Hp |- *.
  - injection Hp as <-. auto.
  - destruct (perform objects o st0) as [st1|] eqn:Ho; [|discriminate].
    destruct (perform_installs fb st0 o st1 Hreach Ho) as [Hreach1 Hn1].
    destruct (IH st1 st Hreach1 Hp) as [Hreach' Hn].
    split; [exact Hreach'|].
    rewrite Hn, Hn1.
    destruct (valid_registration objects o), (existsb (valid_registration objects) ops);
      reflexivity.
Qed.

(** C5. The dispatcher is installed on [fn] exactly once, by the first
    successful registration. A new router carries its base implementation.
    After any operations on it, the count of installations is one if a
    valid registration is among them and zero otherwise, and [fn] carries
    the dispatcher or still its base implementation accordingly. From
    there a valid registration succeeds and leaves the dispatcher installed
    with the count at one; when one was made before, it leaves [fn]
    untouched and only pushes its binding. A rejected registration changes
    nothing. *)
Theorem dispatcher_installed_exactly_once fb ops st :
  perform_all objects ops (calledWithFn fb) = Some st ->
  let registered := existsb (valid_registration objects) ops in
  (router_implementation (calledWithFn fb) = Some (option_map UserFn fb) /\
   dispatcherInstalls (calledWithFn fb) = 0) /\
  dispatcherInstalls st = (if registered then 1 else 0) /\
  router_implementation st =
    Some (if registered then Some Dispatcher else option_map UserFn fb) /\
  (forall args,
     validateCalledWithArgs objects args = Normal tt ->
     exists d st',
       calledWith objects args st = Some (Normal d, st') /\
       dispatcherInstalls st' = 1 /\
       router_implementation st' = Some (Some Dispatcher) /\
       calledWithStack st' = StackItem args d :: calledWithStack st /\
       (registered = true -> mocks st' !! fn st' = mocks st !! fn st)) /\
  (forall args e st',
     calledWith objects args st = Some (Throw e, st') -> st' = st).
Proof.
  intros Hp registered.
  destruct (perform_all_installs fb ops _ _ (reachable_init objects fb) Hp)
    as [Hreach Hn].
  fold registered in Hn. change (dispatcherInstalls (calledWithFn fb)) with 0 in Hn.
  pose proof (reachable_wf objects fb st Hreach) as Hwf.
  destruct (wf_router _ _ Hwf) as (mf & Hmf & Hcase).
  split; [split; reflexivity|]. split; [exact Hn|]. split; [|split].
  - unfold router_implementation, getMockImplementation. rewrite Hmf.
    destruct Hcase as [(Hi & _ & H0)|(Hi & H1)]; rewrite Hi;
      destruct registered; try reflexivity; lia.
  - intros args Hval.
    destruct (calledWith_ok objects fb st args Hwf Hval) as (mf' & _ & Heq).
    simpl in Heq.
    match type of Heq with _ = Some (_, ?s) => set (st' := s) in * end.
    pose proof (calledWith_spec objects fb _ _ _ _ Hwf Heq)
      as (_ & Hfn & Hs & _ & _ & _ & (mf0 & _ & Hmf0) & Hn' & Hsame).
    exists (length (mocks st)), st'. split; [exact Heq|].
    split; [exact Hn'|]. split; [|split; [exact Hs|]].
    + unfold router_implementation, getMockImplementation.
      rewrite Hfn, Hmf0. reflexivity.
    + intros Hreg. rewrite Hfn. apply Hsame. rewrite Hn, Hreg. reflexivity.
  - intros args e st'. apply calledWith_rejected.
Qed.



(** C7. Actual arguments beyond the length of a binding's pattern play no
    part in the scan: a call matches the binding exactly when its first
    [n] arguments do, so two calls with the same first [n] arguments match
    it alike. The delegate of the winning binding receives all the
    arguments, tail included: it records them and runs on them. *)
Theorem variadic_tail_ignored_by_scan fb st I front b back :
  reachable objects fb st ->
  calledWithStack st = front ++ b :: back ->
  (forall x, In x front -> instance_matches objects I x = false) ->
  length (item_args b) < length I ->
  instance_matches objects (firstn (length (item_args b)) I) b = true ->
  (forall J,
     instance_matches objects J b =
     instance_matches objects (firstn (length (item_args b)) J) b) /\
  (forall J K,
     firstn (length (item_args b)) J = firstn (length (item_args b)) K ->
     instance_matches objects J b = instance_matches objects K b) /\
  instance_matches objects I b = true /\
  (forall tail,
     instance_matches objects (firstn (length (item_args b)) I ++ tail) b = true) /\
  (exists md st',
     mocks st !! item_calledWithFn b = Some md /\
     invoke objects I st = Some (impl_result md I, st') /\
     mocks st' !! item_calledWithFn b = Some (Mock (mockImpl md) (mockCalls md ++ [I]))).
Proof.
  intros Hreach Hstack Hfront Hlen Hb.
  pose proof (reachable_wf objects fb st Hreach) as Hwf.
  assert (HbI : instance_matches objects I b = true)
    by (rewrite <- instance_matches_firstn; exact Hb).
  split; [intros J; symmetry; apply instance_matches_firstn|].
  split.
  { intros J K HJK.
    rewrite <- (instance_matches_firstn objects J b),
            <- (instance_matches_firstn objects K b), HJK.
    reflexivity. }
  split; [exact HbI|]. split.
  - intros tail. rewrite <- instance_matches_firstn.
    rewrite firstn_app, firstn_firstn, Nat.min_id, length_firstn.
    replace (length (item_args b) - _) with 0 by lia.
    simpl. rewrite app_nil_r. exact Hb.
  - destruct (invoke_first_match objects fb st I front b back Hwf Hstack Hfront HbI)
      as (md & st' & Hmd & Hinv & Hrec & _).
    exists md, st'. auto.
Qed.

(** C8. A successful registration returns a mock function that did not
    exist before: it is not the router's [fn] and not the delegate of any
    binding registered so far, whatever their patterns. Configuring it
    changes the result of exactly those calls that its own binding wins:
    such a call returns what the configured function returns, and any other
    call returns what it returned without the configuration. *)
Theorem delegate_fresh_and_scoped fb st P d st1 st2 c I :
  reachable objects fb st ->
  calledWith objects P st = Some (Normal d, st1) ->
  reachable objects fb st2 ->
  In (StackItem P d) (calledWithStack st2) ->
  (d <> fn st /\
   mocks st !! d = None /\
   (forall b, In b (calledWithStack st) -> item_calledWithFn b <> d) /\
   mocks st1 !! d = Some (Mock (option_map UserFn fb) [])) /\
  let st3 := mockImplementation d (UserFn c) st2 in
  (winner objects I st2 = Some (StackItem P d) ->
   exists st', invoke objects I st3 = Some (closure_body c I, st')) /\
  (winner objects I st2 <> Some (StackItem P d) ->
   exists r st' st'',
     invoke objects I st2 = Some (r, st') /\
     invoke objects I st3 = Some (r, st'')).
Proof.
  intros Hreach Hcw Hreach2 Hin.
  pose proof (reachable_wf objects fb st Hreach) as Hwf.
  pose proof (reachable_wf objects fb st2 Hreach2) as Hwf2.
  destruct (calledWith_spec objects fb _ _ _ _ Hwf Hcw)
    as (Hd & _ & _ & _ & Hnew & _).
  destruct (wf_router _ _ Hwf) as (mf & Hmf & _).
  pose proof (lookup_lt_Some _ _ _ Hmf) as Hfnlt.
  split.
  { repeat split.
    - lia.
    - apply lookup_ge_None. lia.
    - intros b Hb. destruct (wf_items _ _ Hwf b Hb) as [Hlt _]. lia.
    - exact Hnew. }
  intros st3.
  destruct (wf_items _ _ Hwf2 _ Hin) as [Hdlt Hdfn]. simpl in Hdlt, Hdfn.
  assert (Hwf3 : wf fb st3) by (apply wf_configure; assumption).
  destruct (lookup_lt_is_Some_2 _ _ Hdlt) as [m Hm].
  pose proof (mockImplementation_lookup d (UserFn c) st2 m Hm) as Hm3.
  fold st3 in Hm3.
  pose proof (winner_mockImplementation objects d (UserFn c) st2 I) as Hw3.
  fold st3 in Hw3.
  destruct (invoke_spec objects fb st3 I Hwf3) as (mf3 & _ & Hspec3).
  destruct (invoke_spec objects fb st2 I Hwf2) as (mf2 & _ & Hspec2).
  rewrite Hw3 in Hspec3.
  split.
  - intros Hwin. rewrite Hwin in Hspec3.
    destruct Hspec3 as (md & Hmd & Hinv). simpl in Hmd.
    rewrite Hm3 in Hmd. injection Hmd as <-.
    eexists. exact Hinv.
  - intros Hwin.
    destruct (winner objects I st2) as [b'|] eqn:Hw.
    + destruct Hspec3 as (md3 & Hmd3 & Hinv3).
      destruct Hspec2 as (md2 & Hmd2 & Hinv2).
      assert (Hne : item_calledWithFn b' <> d).
      { intros Heq. apply Hwin. f_equal.
        apply find_some in Hw. destruct Hw as [Hb' _].
        apply (delegate_injective fb st2 b' (StackItem P d) Hwf2 Hb' Hin Heq). }
      unfold st3 in Hmd3. rewrite mockImplementation_lookup_ne in Hmd3 by exact Hne.
      assert (md3 = md2) by congruence. subst md3.
      eauto.
    + eauto.
Qed.

(** C9. A binding registered with the empty pattern matches every call,
    whatever the arguments: until the next registration it wins every call
    of the router, and the delegates of the bindings registered before it
    are no longer called. *)
Theorem empty_pattern_matches_every_call fb st :
  reachable objects fb st ->
  exists d st1,
    calledWith objects [] st = Some (Normal d, st1) /\
    (forall I, instance_matches objects I (StackItem [] d) = true) /\
    (forall st2 I,
       reachable objects fb st2 ->
       calledWithStack st2 = calledWithStack st1 ->
       winner objects I st2 = Some (StackItem [] d) /\
       exists md st',
         mocks st2 !! d = Some md /\
         invoke objects I st2 = Some (impl_result md I, st') /\
         (forall b, In b (calledWithStack st) ->
            mocks st' !! item_calledWithFn b = mocks st2 !! item_calledWithFn b)).
Proof.
  intros Hreach.
  pose proof (reachable_wf objects fb st Hreach) as Hwf.
  destruct (calledWith_succeeds objects fb st [] Hwf) as (d & st1 & Hcw).
  { intros m []. }
  exists d, st1. split; [exact Hcw|]. split; [reflexivity|].
  destruct (calledWith_spec objects fb _ _ _ _ Hwf Hcw) as (Hd & _ & Hs1 & _).
  intros st2 I Hreach2 Hs2.
  pose proof (reachable_wf objects fb st2 Hreach2) as Hwf2.
  rewrite Hs1 in Hs2.
  split.
  - unfold winner. rewrite Hs2. reflexivity.
  - destruct (invoke_first_match objects fb st2 I [] (StackItem [] d)
                (calledWithStack st) Hwf2 Hs2)
      as (md & st' & Hmd & Hinv & _ & _ & Hframe).
    { intros x []. }
    { reflexivity. }
    exists md, st'. split; [exact Hmd|]. split; [exact Hinv|].
    intros b Hb. apply Hframe.
    + destruct (wf_items _ _ Hwf2 b) as [_ Hne]; [|exact Hne].
      rewrite Hs2. right. exact Hb.
    + simpl. destruct (wf_items _ _ Hwf b Hb) as [Hlt _]. lia.
Qed.

(** C10, amended. A call of the router leaves the Binding Stack as it is
    and changes nothing but the call history of [fn] and of the delegate
    that fires. A registration pushes its binding on the front of the
    stack and leaves every binding registered before, and the mock
    function of every delegate, as they were; the first registration also
    installs the dispatcher as the implementation of [fn], and a later one
    leaves [fn] untouched. *)
Theorem frame_of_call_and_registration fb st :
  reachable objects fb st ->
  (forall I r st',
     invoke objects I st = Some (r, st') ->
     calledWithStack st' = calledWithStack st /\
     only_histories_change st st' /\
     (forall k m, mocks st !! k = Some m ->
        mocks st' !! k = Some m \/
        (mocks st' !! k = Some (record_call m I) /\
         (k = fn st \/
          exists b, winner objects I st = Some b /\ k = item_calledWithFn b)))) /\
  (forall args d st',
     calledWith objects args st = Some (Normal d, st') ->
     calledWithStack st' = StackItem args d :: calledWithStack st /\
     (forall k m, mocks st !! k = Some m -> k <> fn st -> mocks st' !! k = Some m) /\
     (exists mf, mocks st !! fn st = Some mf /\
        mocks st' !! fn st = Some (Mock (Some Dispatcher) (mockCalls mf))) /\
     (dispatcherInstalls st = 1 -> only_histories_change st st')).
Proof.
  intros Hreach.
  pose proof (reachable_wf objects fb st Hreach) as Hwf.
  split.
  - intros I r st' Hinv.
    assert (Hmain : calledWithStack st' = calledWithStack st /\
      forall k m, mocks st !! k = Some m ->
        mocks st' !! k = Some m \/
        (mocks st' !! k = Some (record_call m I) /\
         (k = fn st \/
          exists b, winner objects I st = Some b /\ k = item_calledWithFn b))).
    { destruct (invoke_spec objects fb st I Hwf) as (mf & Hmf & Hspec).
      pose proof (lookup_lt_Some _ _ _ Hmf) as Hfnlt.
      destruct (winner objects I st) as [b|] eqn:Hw.
      - destruct Hspec as (md & Hmd & Heq). rewrite Heq in Hinv.
        injection Hinv as _ <-. simpl. split; [reflexivity|].
        apply find_some in Hw. destruct Hw as [Hb _].
        destruct (wf_items _ _ Hwf b Hb) as [Hlt Hne].
        intros k m Hk.
        destruct (decide (k = item_calledWithFn b)) as [->|Hkd].
        + right. split; [|right; eauto].
          rewrite list_lookup_insert_eq by (rewrite length_insert; exact Hlt).
          congruence.
        + rewrite list_lookup_insert_ne by auto.
          destruct (decide (k = fn st)) as [->|Hkf].
          * right. split; [|left; reflexivity].
            rewrite list_lookup_insert_eq by exact Hfnlt. congruence.
          * left. rewrite list_lookup_insert_ne by auto. exact Hk.
      - rewrite Hspec in Hinv. injection Hinv as _ <-. simpl.
        split; [reflexivity|].
        intros k m Hk.
        destruct (decide (k = fn st)) as [->|Hkf].
        + right. split; [|left; reflexivity].
          rewrite list_lookup_insert_eq by exact Hfnlt. congruence.
        + left. rewrite list_lookup_insert_ne by auto. exact Hk. }
    destruct Hmain as [Hs Hk]. split; [exact Hs|]. split; [|exact Hk].
    intros k m Hm. destruct (Hk k m Hm) as [H|[H _]]; eauto.
  - intros args d st' Hcw.
    destruct (calledWith_spec objects fb _ _ _ _ Hwf Hcw)
      as (_ & _ & Hs & _ & _ & Hold & Hfn & _ & Hsame).
    split; [exact Hs|]. split; [|split; [exact Hfn|]].
    + intros k m Hk Hne. rewrite Hold; [exact Hk|exact Hne|].
      eapply lookup_lt_Some; eauto.
    + intros Hone k m Hk. exists m. split; [|reflexivity].
      destruct (decide (k = fn st)) as [->|Hne].
      * rewrite Hsame by exact Hone. exact Hk.
      * rewrite Hold; [exact Hk|exact Hne|]. eapply lookup_lt_Some; eauto.
Qed.

End Properties.

(** ** The properties on a concrete router *)

Lemma sample_router_reachable :
  reachable sample_objects None sample_router.
Proof.
  eapply reachable_step; [apply reachable_init|].
  eapply step_calledWith with (args := [five; VString "x"]). reflexivity.
Qed.

(** [fn.calledWith(anyNumber()).mockImplementation(() => "first")], then
    [fn.calledWith(5).mockImplementation(() => "second")]: the call [fn(5)]
    returns ["second"]. *)
Lemma newest_matching_binding_wins_witness :
  exists st4,
    invoke sample_objects [five]
      (mockImplementation 2 (UserFn second)
         (mockImplementation 1 (UserFn first)
            (after_calledWith sample_objects [five]
               (after_calledWith sample_objects [VObject 0] (calledWithFn None))))) =
    Some (Normal (VString "second"), st4).
Proof.
  destruct (newest_matching_binding_wins sample_objects None (calledWithFn None)
              [VObject 0] [five] [five] 1 2
              (after_calledWith sample_objects [VObject 0] (calledWithFn None))
              (after_calledWith sample_objects [five]
                 (after_calledWith sample_objects [VObject 0] (calledWithFn None)))
              first second)
    as (_ & _ & st4 & H & _).
  - apply reachable_init.
  - reflexivity.
  - reflexivity.
  - reflexivity.
  - reflexivity.
  - exists st4. exact H.
Defined.

(** [calledWith(5, "x")], then the call [fn(5, "x")]. *)
Lemma first_fully_matching_binding_dispatches_witness :
  exists md st',
    mocks sample_router !! 1 = Some md /\
    invoke sample_objects [five; VString "x"] sample_router =
      Some (impl_result md [five; VString "x"], st') /\
    mocks st' !! 1 = Some (record_call md [five; VString "x"]).
Proof.
  refine (proj1 (proj2 (first_fully_matching_binding_dispatches sample_objects None
            sample_router [five; VString "x"] []
            (StackItem [five; VString "x"] 1) [] _ _ _ _))).
  - exact sample_router_reachable.
  - reflexivity.
  - intros x [].
  - intros [|[|i]] entry H; simpl in H; try discriminate; injection H as <-;
      apply matches_by_strict_equality; reflexivity.
Defined.

(** [calledWith(expect.anything())] on a new router. *)
Lemma foreign_matcher_rejected_state_unchanged_witness :
  calledWith sample_objects [VObject 2] (calledWithFn None) =
    Some (Throw (ErrorObject unsupported_matcher_message), calledWithFn None).
Proof.
  apply (foreign_matcher_rejected_state_unchanged sample_objects
           (calledWithFn None) [VObject 2] (VObject 2)).
  - simpl. left. reflexivity.
  - reflexivity.
Defined.

(** [calledWith(5, "x")], then the call [fn(5, "y")], with no fallback. *)
Lemma unmatched_call_falls_through_witness :
  exists st',
    invoke sample_objects [five; VString "y"] sample_router =
      Some (Normal VUndefined, st').
Proof.
  refine (proj1 (unmatched_call_falls_through sample_objects None sample_router
                   [five; VString "y"] _ _)).
  - exact sample_router_reachable.
  - intros b [<-|[]]. reflexivity.
Defined.

(** On a new router, [fn.calledWith(expect.anything())] (rejected) and
    [fn(5, "x")] install nothing; [fn.calledWith(5, "x")],
    [fn.calledWith(expect.anything())], [fn(5, "x")], [fn.calledWith(5)]
    install the dispatcher once. *)
Lemma dispatcher_installed_exactly_once_witness :
  dispatcherInstalls
    (after_invoke sample_objects [five; VString "x"] (calledWithFn None)) = 0 /\
  router_implementation
    (after_invoke sample_objects [five; VString "x"] (calledWithFn None)) = Some None /\
  dispatcherInstalls
    (after_calledWith sample_objects [five]
       (after_invoke sample_objects [five; VString "x"] sample_router)) = 1 /\
  router_implementation
    (after_calledWith sample_objects [five]
       (after_invoke sample_objects [five; VString "x"] sample_router)) =
    Some (Some Dispatcher).
Proof.
  destruct (dispatcher_installed_exactly_once sample_objects None
              [Register [VObject 2]; Call [five; VString "x"]]
              (after_invoke sample_objects [five; VString "x"] (calledWithFn None))
              eq_refl) as (_ & H0 & Hbase & _).
  destruct (dispatcher_installed_exactly_once sample_objects None
              [Register [five; VString "x"]; Register [VObject 2];
               Call [five; VString "x"]; Register [five]]
              (after_calledWith sample_objects [five]
                 (after_invoke sample_objects [five; VString "x"] sample_router))
              eq_refl) as (_ & H1 & Hdisp & _).
  repeat split; assumption.
Defined.


(** [calledWith(5)], then the call [fn(5, "x")]. *)
Lemma variadic_tail_ignored_by_scan_witness :
  instance_matches sample_objects [five; VString "x"] (StackItem [five] 1) = true /\
  instance_matches sample_objects [VNumber (Num 7); VString "x"] (StackItem [five] 1) =
  instance_matches sample_objects [VNumber (Num 7)] (StackItem [five] 1).
Proof.
  destruct (variadic_tail_ignored_by_scan sample_objects None
              (after_calledWith sample_objects [five] (calledWithFn None))
              [five; VString "x"] [] (StackItem [five] 1) [])
    as (Hprefix & _ & Hmatch & _).
  - eapply reachable_step; [apply reachable_init|].
    eapply step_calledWith with (args := [five]). reflexivity.
  - reflexivity.
  - intros x [].
  - simpl. lia.
  - reflexivity.
  - split; [exact Hmatch|].
    exact (Hprefix [VNumber (Num 7); VString "x"]).
Defined.

Lemma delegate_fresh_and_scoped_witness :
  1 <> fn (calledWithFn None) /\ mocks (calledWithFn None) !! 1 = None.
Proof.
  destruct (delegate_fresh_and_scoped sample_objects None (calledWithFn None)
              [five; VString "x"] 1 sample_router sample_router second
              [five; VString "x"])
    as ((H1 & H2 & _) & _).
  - apply reachable_init.
  - reflexivity.
  - exact sample_router_reachable.
  - simpl. left. reflexivity.
  - split; assumption.
Defined.

Lemma empty_pattern_matches_every_call_witness :
  exists d st1,
    calledWith sample_objects [] sample_router = Some (Normal d, st1) /\
    instance_matches sample_objects [five; VString "x"] (StackItem [] d) = true.
Proof.
  destruct (empty_pattern_matches_every_call sample_objects None sample_router
              sample_router_reachable) as (d & st1 & H1 & H2 & _).
  exists d, st1. split; [exact H1|apply H2].
Defined.

(** C10 as worded fails on the first registration, which replaces the
    implementation of [fn]: before [calledWith(5)] a new router's [fn] has
    no implementation, after it the dispatcher. *)
Lemma frame_as_claimed_fails_on_first_registration :
  reachable sample_objects None (calledWithFn None) /\
  ~ frame_as_claimed sample_objects (calledWithFn None).
Proof.
  split; [apply reachable_init|].
  intros [_ H].
  destruct (H [five] 1 (after_calledWith sample_objects [five] (calledWithFn None))
              eq_refl) as [_ Hframe].
  destruct (Hframe 0 (Mock None []) eq_refl) as (m' & Hm' & Himpl).
  vm_compute in Hm'. injection Hm' as <-. discriminate Himpl.
Qed.

(** A second registration, [calledWith(5)], on the sample router. *)
Lemma frame_of_call_and_registration_witness :
  calledWithStack (after_calledWith sample_objects [five] sample_router) =
  StackItem [five] 2 :: calledWithStack sample_router.
Proof.
  exact (proj1 (proj2 (frame_of_call_and_registration sample_objects None sample_router
                         sample_router_reachable)
                  [five] 2 (after_calledWith sample_objects [five] sample_router)
                  eq_refl)).
Defined.

(** ** Further properties of src/CalledWithFn.ts *)

Section Further.

Variable objects : nat -> object.

(** *** Matching *)

Lemma strict_equal_iff a b :
  strict_equal a b = true <-> a = b /\ b <> VNumber NaN.
Proof.
  destruct a as [| |x|x|x|x|x], b as [| |y|y|y|y|y]; simpl;
    try (split; [discriminate|intros [H _]; discriminate H]);
    try (split; [intros _; split; [reflexivity|discriminate]|reflexivity]).
  - rewrite Bool.eqb_true_iff. split.
    + intros ->. split; [reflexivity|discriminate].
    + intros [H _]. congruence.
  - destruct x as [|x], y as [|y]; simpl.
    + split; [discriminate|intros [_ H]; contradiction].
    + split; [discriminate|intros [H _]; discriminate H].
    + split; [discriminate|intros [H _]; discriminate H].
    + rewrite Z.eqb_eq. split.
      * intros ->. split; [reflexivity|discriminate].
      * intros [H _]. congruence.
  - rewrite String.eqb_eq. split.
    + intros ->. split; [reflexivity|discriminate].
    + intros [H _]. congruence.
  - rewrite Nat.eqb_eq. split.
    + intros ->. split; [reflexivity|discriminate].
    + intros [H _]. congruence.
  - rewrite Nat.eqb_eq. split.
    + intros ->. split; [reflexivity|discriminate].
    + intros [H _]. congruence.
Qed.

Lemma arg_at_padded actualArgs n i :
  arg_at (actualArgs ++ repeat VUndefined n) i = arg_at actualArgs i.
Proof.
  unfold arg_at.
  destruct (Nat.lt_ge_cases i (length actualArgs)) as [Hlt|Hge].
  - apply app_nth1. exact Hlt.
  - rewrite app_nth2 by exact Hge.
    rewrite (nth_overflow actualArgs) by exact Hge.
    apply nth_repeat.
Qed.

Lemma arg_at_skipn actualArgs n i :
  arg_at (skipn n actualArgs) i = arg_at actualArgs (n + i).
Proof. unfold arg_at. apply nth_skipn. Qed.

Lemma entry_matches_arg actualArgs actualArgs' entry i j :
  arg_at actualArgs i = arg_at actualArgs' j ->
  entry_matches objects actualArgs entry i = entry_matches objects actualArgs' entry j.
Proof. intros H. unfold entry_matches. rewrite H. reflexivity. Qed.

Lemma every_from_shift {A : Type} (f g : A -> nat -> bool) xs k n :
  (forall i x, f x (n + i) = g x i) ->
  every_from f (n + k) xs = every_from g k xs.
Proof.
  intros H. revert k. induction xs as [|y xs IH]; intros k; simpl; [reflexivity|].
  rewrite H. f_equal. rewrite <- IH. f_equal. lia.
Qed.

Lemma every_from_app {A : Type} (f : A -> nat -> bool) xs ys k :
  every_from f k (xs ++ ys) =
  every_from f k xs && every_from f (k + length xs) ys.
Proof.
  revert k. induction xs as [|x xs IH]; intros k; simpl.
  - rewrite Nat.add_0_r. reflexivity.
  - rewrite IH, andb_assoc. do 2 f_equal. lia.
Qed.

(** X1. Only an object can be rejected by validation: a pattern made of
    [undefined], [null], booleans, numbers, strings and functions is
    always accepted, whatever the strings say. *)
Theorem validation_accepts_non_objects args :
  (forall entry, In entry args -> forall r, entry <> VObject r) ->
  validateCalledWithArgs objects args = Normal tt.
Proof.
  intros H. apply validate_Normal_iff. intros entry He.
  specialize (H entry He). unfold isBunBuiltInMatcher.
  destruct entry as [| |b|n|s|r|r]; simpl; try reflexivity;
    try (rewrite orb_true_r; reflexivity).
  exfalso. apply (H r). reflexivity.
Qed.

(** X2. A missing actual argument is read as [undefined]: a call matches
    a binding exactly when the same call followed by any number of explicit
    [undefined] arguments does. *)
Theorem missing_arguments_read_as_undefined actualArgs n b :
  instance_matches objects (actualArgs ++ repeat VUndefined n) b =
  instance_matches objects actualArgs b.
Proof.
  unfold instance_matches, every. apply every_from_ext.
  intros i x _. apply entry_matches_arg. apply arg_at_padded.
Qed.

(** X3. A pattern with the literal [NaN] among its entries matches no
    call, since [NaN === NaN] is false. *)
Theorem NaN_literal_never_matches actualArgs P d :
  In (VNumber NaN) P ->
  instance_matches objects actualArgs (StackItem P d) = false.
Proof.
  intros Hin.
  destruct (instance_matches objects actualArgs (StackItem P d)) eqn:Hm; [|reflexivity].
  exfalso. unfold instance_matches in Hm. simpl in Hm.
  apply list_elem_of_In, list_elem_of_lookup in Hin. destruct Hin as [i Hi].
  pose proof (proj1 (every_spec _ _) Hm i _ Hi) as He.
  unfold entry_matches in He. simpl in He.
  apply strict_equal_iff in He. destruct He as [_ He]. apply He. reflexivity.
Qed.

(** X4. An entry that is neither a [Matcher] nor an object carrying an
    [asymmetricMatch] function matches exactly the actual argument that is
    the same value: the same primitive, or the same object or function by
    reference; [NaN] matches nothing. *)
Theorem literal_entry_matches_same_value actualArgs entry i :
  is_matcher_entry objects entry = false ->
  entry_matches objects actualArgs entry i = true <->
  arg_at actualArgs i = entry /\ entry <> VNumber NaN.
Proof.
  unfold is_matcher_entry. intros H. apply orb_false_elim in H. destruct H as [H1 H2].
  unfold entry_matches. rewrite H1, H2. apply strict_equal_iff.
Qed.

(** X5. Patterns are positional: a pattern [P1 ++ P2] matches a call
    exactly when [P1] matches it and [P2] matches the arguments that
    follow the first [length P1] ones. *)
Theorem pattern_matches_positionwise actualArgs P1 P2 :
  every (entry_matches objects actualArgs) (P1 ++ P2) =
  every (entry_matches objects actualArgs) P1 &&
  every (entry_matches objects (skipn (length P1) actualArgs)) P2.
Proof.
  unfold every. rewrite every_from_app. f_equal. simpl.
  rewrite <- (Nat.add_0_r (length P1)) at 1.
  apply every_from_shift. intros i x.
  apply entry_matches_arg. symmetry. apply arg_at_skipn.
Qed.

(** *** Registration and dispatch *)


(** X6. The delegate of a binding is created with the fallback as its
    implementation: as long as it is not configured, a call that its
    binding wins returns what the fallback returns, or [undefined] without
    a fallback, and is recorded on the delegate. *)
Theorem unconfigured_delegate_acts_as_fallback fb st P d st1 actualArgs :
  reachable objects fb st ->
  calledWith objects P st = Some (Normal d, st1) ->
  instance_matches objects actualArgs (StackItem P d) = true ->
  exists st',
    invoke objects actualArgs st1 = Some (fallback_result fb actualArgs, st') /\
    mocks st' !! d = Some (Mock (option_map UserFn fb) [actualArgs]).
Proof.
  intros Hreach Hcw Hm.
  pose proof (reachable_wf objects fb st Hreach) as Hwf.
  pose proof (wf_calledWith objects fb _ _ _ _ Hwf Hcw) as Hwf1.
  destruct (calledWith_spec objects fb _ _ _ _ Hwf Hcw)
    as (_ & _ & Hs & _ & Hnew & _).
  destruct (invoke_first_match objects fb st1 actualArgs [] (StackItem P d)
              (calledWithStack st) Hwf1 Hs)
    as (md & st' & Hmd & Hinv & Hrec & _).
  { intros x []. }
  { exact Hm. }
  simpl in Hmd, Hrec. rewrite Hnew in Hmd. injection Hmd as <-.
  exists st'. split; [|exact Hrec].
  rewrite Hinv. destruct fb; reflexivity.
Qed.

(** X7. Registering a pattern changes nothing for the calls it does not
    match: such a call returns after the registration what it returned
    before. *)
Theorem non_matching_registration_is_invisible fb st P d st1 actualArgs :
  reachable objects fb st ->
  calledWith objects P st = Some (Normal d, st1) ->
  instance_matches objects actualArgs (StackItem P d) = false ->
  exists r st' st1',
    invoke objects actualArgs st = Some (r, st') /\
    invoke objects actualArgs st1 = Some (r, st1').
Proof.
  intros Hreach Hcw Hm.
  pose proof (reachable_wf objects fb st Hreach) as Hwf.
  pose proof (wf_calledWith objects fb _ _ _ _ Hwf Hcw) as Hwf1.
  destruct (calledWith_spec objects fb _ _ _ _ Hwf Hcw)
    as (_ & _ & Hs & _ & _ & Hold & _).
  assert (Hw : winner objects actualArgs st1 = winner objects actualArgs st).
  { unfold winner. rewrite Hs. simpl. rewrite Hm. reflexivity. }
  destruct (invoke_spec objects fb st actualArgs Hwf) as (mf & _ & Hspec).
  destruct (invoke_spec objects fb st1 actualArgs Hwf1) as (mf1 & _ & Hspec1).
  rewrite Hw in Hspec1.
  destruct (winner objects actualArgs st) as [b|] eqn:Hwin.
  - destruct Hspec as (md & Hmd & Hinv). destruct Hspec1 as (md1 & Hmd1 & Hinv1).
    apply find_some in Hwin. destruct Hwin as [Hb _].
    destruct (wf_items _ _ Hwf b Hb) as [Hlt Hne].
    rewrite Hold in Hmd1 by assumption.
    assert (md1 = md) by congruence. subst md1. eauto.
  - eauto.
Qed.



(** X9. The call history of a delegate holds only calls that match the
    pattern of its binding. *)
Theorem delegate_history_matches_its_pattern fb st b md call :
  reachable objects fb st ->
  In b (calledWithStack st) ->
  mocks st !! item_calledWithFn b = Some md ->
  In call (mockCalls md) ->
  instance_matches objects call b = true.
Proof.
  intros Hreach. revert b md call.
  induction Hreach as [|st st' Hreach IH Hstep].
  - intros b md call [].
  - pose proof (reachable_wf objects fb st Hreach) as Hwf.
    destruct Hstep as [args st [d|e] st' Hcw|actualArgs st r st' Hinv|d c st Hd].
    + destruct (calledWith_spec objects fb _ _ _ _ Hwf Hcw)
        as (_ & _ & Hs & _ & Hnew & Hold & _).
      intros b md call Hb Hmd Hcall. rewrite Hs in Hb.
      destruct Hb as [<-|Hb].
      * simpl in Hmd. rewrite Hnew in Hmd. injection Hmd as <-. destruct Hcall.
      * destruct (wf_items _ _ Hwf b Hb) as [Hlt Hne].
        rewrite Hold in Hmd by assumption. eauto.
    + apply (calledWith_rejected objects) in Hcw. subst st'. exact IH.
    + destruct (invoke_spec objects fb st actualArgs Hwf) as (mf & Hmf & Hspec).
      destruct (winner objects actualArgs st) as [w|] eqn:Hw.
      * destruct Hspec as (mw & Hmw & Heq). rewrite Heq in Hinv.
        injection Hinv as _ <-. simpl.
        apply find_some in Hw. destruct Hw as [Hwin Hwm].
        destruct (wf_items _ _ Hwf w Hwin) as [Hwlt Hwne].
        intros b md call Hb Hmd Hcall.
        destruct (wf_items _ _ Hwf b Hb) as [Hlt Hne].
        destruct (decide (item_calledWithFn b = item_calledWithFn w)) as [Heqd|Hned].
        -- assert (b = w) by (eapply delegate_injective; eauto). subst b.
           rewrite list_lookup_insert_eq in Hmd by (rewrite length_insert; exact Hwlt).
           injection Hmd as <-. simpl in Hcall.
           apply in_app_or in Hcall. destruct Hcall as [Hcall|[<-|[]]].
           ++ eauto.
           ++ exact Hwm.
        -- rewrite !list_lookup_insert_ne in Hmd by auto. eauto.
      * rewrite Hspec in Hinv. injection Hinv as _ <-. simpl.
        intros b md call Hb Hmd Hcall.
        destruct (wf_items _ _ Hwf b Hb) as [Hlt Hne].
        rewrite list_lookup_insert_ne in Hmd by auto. eauto.
    + intros b md call Hb Hmd Hcall.
      destruct (mockImplementation_frame d (UserFn c) st) as (_ & _ & Hs & _).
      rewrite Hs in Hb.
      destruct (decide (item_calledWithFn b = d)) as [<-|Hne].
      * destruct (wf_items _ _ Hwf b Hb) as [Hlt _].
        destruct (lookup_lt_is_Some_2 _ _ Hlt) as [m Hm].
        rewrite (mockImplementation_lookup _ _ _ _ Hm) in Hmd.
        injection Hmd as <-. simpl in Hcall. eauto.
      * rewrite mockImplementation_lookup_ne in Hmd by exact Hne. eauto.
Qed.

(** The successful branch of [calledWith], whatever is installed on [fn]. *)
Lemma calledWith_unfold st args mf :
  mocks st !! fn st = Some mf ->
  validateCalledWithArgs objects args = Normal tt ->
  let d := length (mocks st) in
  let ms := mocks st ++ [Mock (option_map UserFn (fallbackMockImplementation st)) []] in
  calledWith objects args st =
    Some (Normal d,
          if must_install (mockImpl mf) (fallbackMockImplementation st)
          then State (fallbackMockImplementation st) (fn st) [StackItem args d]
                 (<[fn st := Mock (Some Dispatcher) (mockCalls mf)]> ms)
                 (S (dispatcherInstalls st))
          else State (fallbackMockImplementation st) (fn st)
                 (StackItem args d :: calledWithStack st) ms
                 (dispatcherInstalls st)).
Proof.
  intros Hmf Hval. unfold calledWith. rewrite Hval. simpl.
  unfold getMockImplementation. simpl.
  rewrite (lookup_app_l_Some _ _ _ _ Hmf). simpl.
  destruct (must_install (mockImpl mf) (fallbackMockImplementation st)).
  - unfold mockImplementation. simpl.
    rewrite (lookup_app_l_Some _ _ _ _ Hmf). reflexivity.
  - reflexivity.
Qed.

(** X10. When the user has put the fallback back on the router
    ([fn.mockImplementation(fallbackMockImplementation)]), the next
    registration installs the dispatcher again and starts from an empty
    stack: the bindings registered before are discarded. *)
Theorem restoring_fallback_discards_bindings f st P :
  reachable objects (Some f) st ->
  validateCalledWithArgs objects P = Normal tt ->
  exists d st1,
    calledWith objects P (mockImplementation (fn st) (UserFn f) st) =
      Some (Normal d, st1) /\
    calledWithStack st1 = [StackItem P d] /\
    router_implementation st1 = Some (Some Dispatcher) /\
    dispatcherInstalls st1 = S (dispatcherInstalls st).
Proof.
  intros Hreach Hval.
  pose proof (reachable_wf objects _ st Hreach) as Hwf.
  destruct (wf_router _ _ Hwf) as (mf & Hmf & _).
  pose proof (mockImplementation_lookup (fn st) (UserFn f) st mf Hmf) as Hmf'.
  destruct (mockImplementation_frame (fn st) (UserFn f) st)
    as (Hfb & Hfn & Hs & Hn & Hlen).
  set (st_r := mockImplementation (fn st) (UserFn f) st) in *.
  rewrite <- Hfn in Hmf'.
  pose proof (calledWith_unfold st_r P _ Hmf' Hval) as Hcw.
  simpl in Hcw. rewrite Hfb, (wf_fallback _ _ Hwf) in Hcw.
  simpl in Hcw. rewrite Nat.eqb_refl in Hcw.
  eexists. eexists. split; [exact Hcw|].
  simpl. split; [reflexivity|]. split.
  - unfold router_implementation, getMockImplementation. simpl.
    rewrite list_lookup_insert_eq; [reflexivity|].
    rewrite length_app. apply lookup_lt_Some in Hmf'. lia.
  - rewrite Hn. reflexivity.
Qed.

(** X11. A registration made while a user function other than the
    fallback is installed on the router pushes its binding without
    installing the dispatcher: every call still runs that function, and the
    new delegate is not called, whatever the arguments. *)
Theorem custom_implementation_bypasses_bindings fb st g P :
  reachable objects fb st ->
  same_function (UserFn g) fb = false ->
  validateCalledWithArgs objects P = Normal tt ->
  exists d st1,
    calledWith objects P (mockImplementation (fn st) (UserFn g) st) =
      Some (Normal d, st1) /\
    calledWithStack st1 = StackItem P d :: calledWithStack st /\
    router_implementation st1 = Some (Some (UserFn g)) /\
    forall actualArgs, exists st',
      invoke objects actualArgs st1 = Some (closure_body g actualArgs, st') /\
      mocks st' !! d = mocks st1 !! d.
Proof.
  intros Hreach Hg Hval.
  pose proof (reachable_wf objects _ st Hreach) as Hwf.
  destruct (wf_router _ _ Hwf) as (mf & Hmf & _).
  pose proof (mockImplementation_lookup (fn st) (UserFn g) st mf Hmf) as Hmf'.
  destruct (mockImplementation_frame (fn st) (UserFn g) st)
    as (Hfb & Hfn & Hs & Hn & Hlen).
  set (st_g := mockImplementation (fn st) (UserFn g) st) in *.
  rewrite <- Hfn in Hmf'.
  pose proof (calledWith_unfold st_g P _ Hmf' Hval) as Hcw.
  cbv zeta in Hcw. cbn [mockImpl mockCalls must_install] in Hcw.
  rewrite Hfb, (wf_fallback _ _ Hwf) in Hcw.
  rewrite Hg in Hcw.
  pose proof (lookup_lt_Some _ _ _ Hmf') as Hlt.
  eexists. eexists. split; [exact Hcw|].
  simpl. split; [rewrite Hs; reflexivity|]. split.
  - unfold router_implementation, getMockImplementation. simpl.
    rewrite (lookup_app_l_Some _ _ _ _ Hmf'). reflexivity.
  - intros actualArgs. unfold invoke, jest_call. simpl.
    rewrite (lookup_app_l_Some _ _ _ _ Hmf'). simpl.
    eexists. split; [reflexivity|]. simpl.
    apply list_lookup_insert_ne. lia.
Qed.

(** X12. The call history of the router is the aggregate one: every call
    recorded on the delegate of a binding is recorded on [fn] too. *)
Theorem delegate_calls_are_router_calls fb st b md mf call :
  reachable objects fb st ->
  In b (calledWithStack st) ->
  mocks st !! item_calledWithFn b = Some md ->
  mocks st !! fn st = Some mf ->
  In call (mockCalls md) ->
  In call (mockCalls mf).
Proof.
  intros Hreach. revert b md mf call.
  induction Hreach as [|st st' Hreach IH Hstep].
  - intros b md mf call [].
  - pose proof (reachable_wf objects fb st Hreach) as Hwf.
    destruct Hstep as [args st [d|e] st' Hcw|actualArgs st r st' Hinv|d c st Hd].
    + destruct (calledWith_spec objects fb _ _ _ _ Hwf Hcw)
        as (_ & Hfn & Hs & _ & Hnew & Hold & (mf0 & Hmf0 & Hmf0') & _).
      intros b md mf call Hb Hmd Hmf Hcall. rewrite Hs in Hb.
      rewrite Hfn, Hmf0' in Hmf. injection Hmf as <-. simpl.
      destruct Hb as [<-|Hb].
      * simpl in Hmd. rewrite Hnew in Hmd. injection Hmd as <-. destruct Hcall.
      * destruct (wf_items _ _ Hwf b Hb) as [Hlt Hne].
        rewrite Hold in Hmd by assumption. eauto.
    + apply (calledWith_rejected objects) in Hcw. subst st'. exact IH.
    + destruct (invoke_spec objects fb st actualArgs Hwf) as (mf0 & Hmf0 & Hspec).
      pose proof (lookup_lt_Some _ _ _ Hmf0) as Hfnlt.
      destruct (winner objects actualArgs st) as [w|] eqn:Hw.
      * destruct Hspec as (mw & Hmw & Heq). rewrite Heq in Hinv.
        injection Hinv as _ <-. simpl.
        apply find_some in Hw. destruct Hw as [Hwin Hwm].
        destruct (wf_items _ _ Hwf w Hwin) as [Hwlt Hwne].
        intros b md mf call Hb Hmd Hmf Hcall.
        destruct (wf_items _ _ Hwf b Hb) as [Hlt Hne].
        rewrite list_lookup_insert_ne in Hmf by auto.
        rewrite list_lookup_insert_eq in Hmf by exact Hfnlt.
        injection Hmf as <-. simpl. apply in_or_app.
        destruct (decide (item_calledWithFn b = item_calledWithFn w)) as [Heqd|Hned].
        -- rewrite Heqd in Hmd.
           rewrite list_lookup_insert_eq in Hmd by (rewrite length_insert; exact Hwlt).
           injection Hmd as <-. simpl in Hcall.
           apply in_app_or in Hcall. destruct Hcall as [Hcall|Hcall].
           ++ left. rewrite <- Heqd in Hmw. eauto.
           ++ right. exact Hcall.
        -- rewrite !list_lookup_insert_ne in Hmd by auto. left. eauto.
      * rewrite Hspec in Hinv. injection Hinv as _ <-. simpl.
        intros b md mf call Hb Hmd Hmf Hcall.
        destruct (wf_items _ _ Hwf b Hb) as [Hlt Hne].
        rewrite list_lookup_insert_ne in Hmd by auto.
        rewrite list_lookup_insert_eq in Hmf by exact Hfnlt.
        injection Hmf as <-. simpl. apply in_or_app. left. eauto.
    + intros b md mf call Hb Hmd Hmf Hcall.
      destruct (mockImplementation_frame d (UserFn c) st) as (_ & Hfn & Hs & _).
      rewrite Hs in Hb. rewrite Hfn in Hmf.
      rewrite mockImplementation_lookup_ne in Hmf by auto.
      destruct (decide (item_calledWithFn b = d)) as [<-|Hne].
      * destruct (wf_items _ _ Hwf b Hb) as [Hlt _].
        destruct (lookup_lt_is_Some_2 _ _ Hlt) as [m Hm].
        rewrite (mockImplementation_lookup _ _ _ _ Hm) in Hmd.
        injection Hmd as <-. simpl in Hcall. eauto.
      * rewrite mockImplementation_lookup_ne in Hmd by exact Hne. eauto.
Qed.




End Further.

(** ** The further properties on a concrete router *)

(** The pattern [(undefined, null, 5, "ExpectAnything", someFunction)]. *)
Lemma validation_accepts_non_objects_witness :
  validateCalledWithArgs sample_objects
    [VUndefined; VNull; five; VString "ExpectAnything"; VFunction 0] = Normal tt.
Proof.
  apply (validation_accepts_non_objects sample_objects).
  intros entry H r.
  simpl in H. destruct H as [<-|[<-|[<-|[<-|[<-|[]]]]]]; discriminate.
Defined.

(** [calledWith(5, NaN)] against the call [fn(5, NaN)]. *)
Lemma NaN_literal_never_matches_witness :
  instance_matches sample_objects [five; VNumber NaN]
    (StackItem [five; VNumber NaN] 1) = false.
Proof.
  apply (NaN_literal_never_matches sample_objects).
  simpl. right. left. reflexivity.
Defined.

(** The plain object 3 as a pattern entry, against the call [fn(object3)]. *)
Lemma literal_entry_matches_same_value_witness :
  entry_matches sample_objects [VObject 3] (VObject 3) 0 = true <->
  arg_at [VObject 3] 0 = VObject 3 /\ VObject 3 <> VNumber NaN.
Proof.
  apply (literal_entry_matches_same_value sample_objects [VObject 3] (VObject 3) 0).
  reflexivity.
Defined.

(** [calledWithFn({ fallbackMockImplementation }).calledWith(5)], not
    configured, then the call [fn(5)]. *)
Lemma unconfigured_delegate_acts_as_fallback_witness :
  exists st',
    invoke sample_objects [five] (sample_router_with_fallback sample_objects) =
      Some (Normal (VString "fallback"), st') /\
    mocks st' !! 1 = Some (Mock (Some (UserFn sample_fallback)) [[five]]).
Proof.
  apply (unconfigured_delegate_acts_as_fallback sample_objects (Some sample_fallback)
           (calledWithFn (Some sample_fallback)) [five] 1
           (sample_router_with_fallback sample_objects) [five]).
  - apply reachable_init.
  - reflexivity.
  - reflexivity.
Defined.

(** [calledWith(5)] on the sample router, then the call [fn(5, "x")],
    which [(5, "x")] wins as before and [5] alone would win too; the call
    [fn("y")] is matched by neither. *)
Lemma non_matching_registration_is_invisible_witness :
  exists r st' st1',
    invoke sample_objects [VString "y"] sample_router = Some (r, st') /\
    invoke sample_objects [VString "y"]
      (after_calledWith sample_objects [five] sample_router) = Some (r, st1').
Proof.
  apply (non_matching_registration_is_invisible sample_objects None sample_router
           [five] 2).
  - exact sample_router_reachable.
  - reflexivity.
  - reflexivity.
Defined.


(** The sample router after the call [fn(5, "x")]. *)
Lemma delegate_history_matches_its_pattern_witness :
  instance_matches sample_objects [five; VString "x"]
    (StackItem [five; VString "x"] 1) = true.
Proof.
  apply (delegate_history_matches_its_pattern sample_objects None
           (after_invoke sample_objects [five; VString "x"] sample_router)
           (StackItem [five; VString "x"] 1)
           (Mock None [[five; VString "x"]])
           [five; VString "x"]).
  - eapply reachable_step; [exact sample_router_reachable|].
    eapply step_invoke with (actualArgs := [five; VString "x"]). reflexivity.
  - simpl. left. reflexivity.
  - reflexivity.
  - simpl. left. reflexivity.
Defined.

(** [fn.calledWith(5)], [fn.mockImplementation(fallbackMockImplementation)],
    then [fn.calledWith("x")]. *)
Lemma restoring_fallback_discards_bindings_witness :
  exists d st1,
    calledWith sample_objects [VString "x"]
      (mockImplementation (fn (sample_router_with_fallback sample_objects))
         (UserFn sample_fallback) (sample_router_with_fallback sample_objects)) =
      Some (Normal d, st1) /\
    calledWithStack st1 = [StackItem [VString "x"] d].
Proof.
  destruct (restoring_fallback_discards_bindings sample_objects sample_fallback
              (sample_router_with_fallback sample_objects) [VString "x"])
    as (d & st1 & H1 & H2 & _).
  - eapply reachable_step; [apply reachable_init|].
    eapply step_calledWith with (args := [five]). reflexivity.
  - reflexivity.
  - exists d, st1. split; assumption.
Defined.

(** [fn.mockImplementation(() => "custom")], then [fn.calledWith(5)]. *)
Lemma custom_implementation_bypasses_bindings_witness :
  exists d st1,
    calledWith sample_objects [five]
      (mockImplementation (fn sample_router) (UserFn custom) sample_router) =
      Some (Normal d, st1) /\
    calledWithStack st1 = StackItem [five] d :: calledWithStack sample_router.
Proof.
  destruct (custom_implementation_bypasses_bindings sample_objects None sample_router
              custom [five])
    as (d & st1 & H1 & H2 & _).
  - exact sample_router_reachable.
  - reflexivity.
  - reflexivity.
  - exists d, st1. split; assumption.
Defined.

(** The sample router after the call [fn(5, "x")]: the call is on the
    delegate and on [fn]. *)
Lemma delegate_calls_are_router_calls_witness :
  In [five; VString "x"] [[five; VString "x"]].
Proof.
  apply (delegate_calls_are_router_calls sample_objects None
           (after_invoke sample_objects [five; VString "x"] sample_router)
           (StackItem [five; VString "x"] 1)
           (Mock None [[five; VString "x"]])
           (Mock (Some Dispatcher) [[five; VString "x"]])
           [five; VString "x"]).
  - eapply reachable_step; [exact sample_router_reachable|].
    eapply step_invoke with (actualArgs := [five; VString "x"]). reflexivity.
  - simpl. left. reflexivity.
  - reflexivity.
  - reflexivity.
  - simpl. left. reflexivity.
Defined.

